(** * loady: resolution and loading of native bindings

    A shallow embedding of [lib/loady.js] and the properties of its
    resolution algorithm: candidate generation, upward root discovery,
    attempt-and-classify loading and the per-key cache. *)

From Stdlib Require Import String Ascii List ZArith Lia Bool.
From stdpp Require Import base option list gmap strings.

Local Open Scope string_scope.
Local Open Scope list_scope.

(** ** JavaScript data *)

(** The values the program handles as arguments, as loaded bindings and
    as thrown values.  Numbers are the integers and [NaN], BigInts are
    integers of their own type ([0n] is [VBigInt 0]); objects are opaque
    references. *)
Inductive value :=
| VUndefined
| VNull
| VBoolean (b : bool)
| VNumber (n : Z)
| VString (s : string)
| VObject (ref : nat)
| VNaN
| VBigInt (n : Z).

(** [if (v)]: JavaScript truthiness. *)
Definition truthy (v : value) : bool :=
  match v with
  | VUndefined | VNull => false
  | VBoolean b => b
  | VNumber n => negb (n =? 0)%Z
  | VString s => negb (String.eqb s "")
  | VObject _ => true
  | VNaN => false
  | VBigInt n => negb (n =? 0)%Z
  end.

Inductive error_class := ClsError | ClsTypeError.

(** An error object: its constructor, its message and the optional
    properties the program sets or inspects. *)
Record error := {
  err_class : error_class;
  err_message : string;
  err_code : option string;
  err_path : option string;
  err_url : option string;
  err_tries : option (list string)
}.

(** [new Error(msg)] and [new TypeError(msg)]. *)
Definition new_Error (msg : string) : error :=
  {| err_class := ClsError; err_message := msg; err_code := None;
     err_path := None; err_url := None; err_tries := None |}.

Definition new_TypeError (msg : string) : error :=
  {| err_class := ClsTypeError; err_message := msg; err_code := None;
     err_path := None; err_url := None; err_tries := None |}.

Definition set_code (c : string) (e : error) : error :=
  {| err_class := err_class e; err_message := err_message e;
     err_code := Some c; err_path := err_path e; err_url := err_url e;
     err_tries := err_tries e |}.

Definition set_path (p : string) (e : error) : error :=
  {| err_class := err_class e; err_message := err_message e;
     err_code := err_code e; err_path := Some p; err_url := err_url e;
     err_tries := err_tries e |}.

Definition set_url (u : string) (e : error) : error :=
  {| err_class := err_class e; err_message := err_message e;
     err_code := err_code e; err_path := err_path e; err_url := Some u;
     err_tries := err_tries e |}.

Definition set_tries (t : list string) (e : error) : error :=
  {| err_class := err_class e; err_message := err_message e;
     err_code := err_code e; err_path := err_path e; err_url := err_url e;
     err_tries := Some t |}.

(** What a [throw] statement throws: an error object, seen through the
    properties above, or any other value ([throw null] is legal). *)
Inductive thrown :=
| ThrownError (e : error)
| ThrownValue (v : value).

Coercion ThrownError : error >-> thrown.

(** The outcome of a call: a value, something thrown, or a loop that has
    not finished within its budget of iterations. *)
Inductive result (A : Type) :=
| Ok (a : A)
| Throw (x : thrown)
| Hang.
Arguments Ok {A} a.
Arguments Throw {A} x.
Arguments Hang {A}.

(** ** Text helpers *)

Definition dquote : string := String "034"%char EmptyString.
Definition nul : string := String "000"%char EmptyString.
Definition newline : string := String "010"%char EmptyString.

(** ASCII case folding, as the [i] flag of a regular expression does on
    the letters of an ASCII pattern. *)
Definition lower (c : ascii) : ascii :=
  let n := nat_of_ascii c in
  if (65 <=? n)%nat && (n <=? 90)%nat then ascii_of_nat (n + 32) else c.

Fixpoint lower_string (s : string) : string :=
  match s with
  | EmptyString => EmptyString
  | String c s' => String (lower c) (lower_string s')
  end.

Fixpoint contains (needle s : string) : bool :=
  String.prefix needle s ||
  match s with
  | EmptyString => false
  | String _ s' => contains needle s'
  end.

(** Whether the character U+0000 occurs in the text. *)
Fixpoint has_nul (s : string) : bool :=
  match s with
  | EmptyString => false
  | String c s' => Ascii.eqb c "000"%char || has_nul s'
  end.

(** [/not find/i.test(msg)] *)
Definition not_find_test (msg : string) : bool :=
  contains "not find" (lower_string msg).

(** [path.indexOf('file:') === 0] *)
Definition is_file_uri (path : string) : bool := String.prefix "file:" path.

(** [tries.map(file => ` - ${file}`).join('\n')] *)
Fixpoint join_lines (l : list string) : string :=
  match l with
  | [] => ""
  | [x] => x
  | x :: rest => x +:+ newline +:+ join_lines rest
  end.

(** ** The host: Node's [path], [url] and [process] *)

(** The functions of Node's [path] module the program calls, with the
    working directory of [resolve] made explicit.  [depth] is not part
    of Node: it is the measure that bounds the walk of [dirname] towards
    the filesystem root (see [PathLaws]). *)
Class PathModule := {
  dirname : string → string;
  extname : string → string;
  join : list string → string;
  resolve : string → string → string;
  isAbsolute : string → bool;
  depth : string → nat
}.

(** What the properties below need of a path module: [dirname] descends
    until it reaches a fixed point, the filesystem root, and absolute
    paths stay absolute. *)
Class PathLaws (PM : PathModule) : Prop := {
  dirname_depth : ∀ p, dirname p ≠ p → (depth (dirname p) < depth p)%nat;
  resolve_absolute :
    ∀ cwd p, isAbsolute cwd = true → isAbsolute (resolve cwd p) = true;
  dirname_absolute :
    ∀ p, isAbsolute p = true → isAbsolute (dirname p) = true;
  join_absolute :
    ∀ p l, isAbsolute p = true → isAbsolute (join (p :: l)) = true
}.

(** The fields of [process] read when the module is loaded. *)
Record Process := {
  arch : string;
  platform : string;
  versions_modules : string;
  versions_node : string;
  env_NODE_BINDINGS_COMPILED_DIR : option string
}.

(** What changes from call to call: the working directory, the files
    that exist and what the module loader does with a file name: it
    returns the exported value, throws an error object, or does not
    return.  The world stays as it is during one call. *)
Record World := {
  cwd : string;
  fs_exists : string → bool;
  loader : string → result value
}.

(** ** Effects *)

Inductive event :=
| EvExists (p : string)
| EvLoad (file : string).

(** A computation reads and writes the cache and records the filesystem
    and loader calls it makes. *)
Definition M (A : Type) : Type :=
  gmap string value → result A * gmap string value * list event.

Definition ret {A} (a : A) : M A := λ c, (Ok a, c, []).

Definition throw {A} (x : thrown) : M A := λ c, (Throw x, c, []).

Definition hang {A} : M A := λ c, (Hang, c, []).

Definition bind {A B} (m : M A) (f : A → M B) : M B :=
  λ c,
    match m c with
    | (Ok a, c1, t1) =>
        match f a c1 with
        | (r, c2, t2) => (r, c2, t1 ++ t2)
        end
    | (Throw e, c1, t1) => (Throw e, c1, t1)
    | (Hang, c1, t1) => (Hang, c1, t1)
    end.

(** [try { m } catch (e) { h e }] with the normal continuation [k]. *)
Definition try_catch {A B} (m : M A) (k : A → M B) (h : thrown → M B) : M B :=
  λ c,
    match m c with
    | (Ok a, c1, t1) =>
        match k a c1 with
        | (r, c2, t2) => (r, c2, t1 ++ t2)
        end
    | (Throw e, c1, t1) =>
        match h e c1 with
        | (r, c2, t2) => (r, c2, t1 ++ t2)
        end
    | (Hang, c1, t1) => (Hang, c1, t1)
    end.

Notation "'let*' x ':=' m 'in' k" := (bind m (λ x, k))
  (at level 10, x name, m at level 100, k at level 200, only parsing).

(** [cache[key]]: a missing property reads as [undefined]. *)
Definition cache_get (key : string) : M value :=
  λ c, (Ok (default VUndefined (c !! key)), c, []).

Definition of_result {A} (r : result A) : M A := λ c, (r, c, []).

Definition cache_set (key : string) (v : value) : M unit :=
  λ c, (Ok tt, <[key := v]> c, []).

Definition existsSync (W : World) (p : string) : M bool :=
  λ c, (Ok (fs_exists W p), c, [EvExists p]).

Definition call_loader (W : World) (file : string) : M value :=
  λ c, (loader W file, c, [EvLoad file]).

(** The files handed to the loader, in the order of the calls. *)
Fixpoint attempts (t : list event) : list string :=
  match t with
  | [] => []
  | EvLoad file :: t' => file :: attempts t'
  | EvExists _ :: t' => attempts t'
  end.

(** ** Objects with string properties and one prototype *)

Record object := {
  own : list (string * string);
  proto : list (string * string)
}.

Fixpoint assoc (k : string) (l : list (string * string)) : option string :=
  match l with
  | [] => None
  | (k', v) :: rest => if String.eqb k k' then Some v else assoc k rest
  end.

(** [Object.create(proto)] *)
Definition Object_create (p : list (string * string)) : object :=
  {| own := []; proto := p |}.

(** [o[k] = v] *)
Definition set_prop (k v : string) (o : object) : object :=
  {| own := (k, v) :: own o; proto := proto o |}.

(** [o[k]]: own properties first, then the prototype; [None] is
    [undefined]. *)
Definition get_prop (k : string) (o : object) : option string :=
  match assoc k (own o) with
  | Some v => Some v
  | None => assoc k (proto o)
  end.

(** [part[0] === '$'] *)
Definition is_variable (part : string) : bool :=
  match part with
  | String c _ => Ascii.eqb c "$"%char
  | EmptyString => false
  end.

(** [part.substring(1)] *)
Definition substring1 (part : string) : string :=
  match part with
  | String _ rest => rest
  | EmptyString => EmptyString
  end.

(** ** The program *)

(** url.fileURLToPath, absent on old hosts; it throws on a URL it cannot
    convert. *)
Record UrlModule := {
  fileURLToPath : option (string → error + string)
}.

Definition paths : list (list string) := [
  ["$root"; "build"; "$name"];
  ["$root"; "build"; "Debug"; "$name"];
  ["$root"; "build"; "Release"; "$name"];
  ["$root"; "$name"];
  ["$root"; "Debug"; "$name"];
  ["$root"; "Release"; "$name"];
  ["$root"; "MinSizeRel"; "$name"];
  ["$root"; "RelWithDebInfo"; "$name"];
  ["$root"; "out"; "Debug"; "$name"];
  ["$root"; "Debug"; "$name"];
  ["$root"; "out"; "Release"; "$name"];
  ["$root"; "Release"; "$name"];
  ["$root"; "build"; "default"; "$name"];
  ["$root"; "$compiled"; "$version"; "$platform"; "$arch"; "$name"];
  ["$root"; "addon-build"; "release"; "install-root"; "$name"];
  ["$root"; "addon-build"; "debug"; "install-root"; "$name"];
  ["$root"; "addon-build"; "default"; "install-root"; "$name"];
  ["$root"; "lib"; "binding"; "$pregyp"; "$name"]
].

Section Loady.
Context `{PM : PathModule} (P : Process) (U : UrlModule).

(** [process.env.NODE_BINDINGS_COMPILED_DIR || 'compiled'] *)
Definition compiled_dir : string :=
  match env_NODE_BINDINGS_COMPILED_DIR P with
  | Some s => if String.eqb s "" then "compiled" else s
  | None => "compiled"
  end.

Definition defaults : list (string * string) := [
  ("root", "/");
  ("name", "bindings.node");
  ("arch", arch P);
  ("compiled", compiled_dir);
  ("pregyp",
    "node-v" +:+ versions_modules P +:+ "-" +:+ platform P +:+ "-" +:+ arch P);
  ("platform", platform P);
  ("version", versions_node P)
].

Definition err_no_root (path : string) : error :=
  set_path path
    (set_code "ERR_BINDINGS_NO_ROOT"
      (new_Error ("Could not find module root given file: " +:+ dquote
                  +:+ path +:+ dquote +:+ ". "
                  +:+ "Do you have a `package.json` file?"))).

Definition err_file_uri (path : string) : error :=
  set_url path
    (set_code "ERR_BINDINGS_FILE_URI"
      (new_Error "File URLs are unsupported on this platform.")).

Definition err_not_found (tries : list string) : error :=
  let msg := join_lines (map (λ file, " - " +:+ file) tries) in
  set_tries tries
    (set_code "ERR_BINDINGS_NOT_FOUND"
      (new_Error ("Could not locate the bindings file. Tried:" +:+ newline
                  +:+ msg))).

(** The test at the head of the loop of [getRoot]; [||] evaluates its
    second operand only when the first is false. *)
Definition has_marker (W : World) (root : string) : M bool :=
  let* a := existsSync W (join [root; "package.json"]) in
  if (a : bool) then ret true
  else existsSync W (join [root; "node_modules"]).

(** The loop of [getRoot], with a budget of iterations. *)
Fixpoint getRoot_loop (W : World) (path : string) (fuel : nat)
    (root : string) : M string :=
  match fuel with
  | O => hang
  | S fuel' =>
      let* found := has_marker W root in
      if (found : bool) then ret root
      else
        let next := dirname root in
        if String.eqb next root then throw (err_no_root path)
        else getRoot_loop W path fuel' next
  end.

(** The budget is one more than the depth of the start, which the loop
    never exhausts (see [getRoot_loop_total]). *)
Definition getRoot (W : World) (path : string) : M string :=
  let root := resolve (cwd W) path in
  getRoot_loop W path (S (depth root)) root.

(** [ensurePath] touches neither the cache nor the filesystem. *)
Definition ensurePath (path : string) : result string :=
  if is_file_uri path then
    match fileURLToPath U with
    | None => Throw (err_file_uri path)
    | Some f =>
        match f path with
        | inr file => Ok (dirname file)
        | inl e => Throw e
        end
    end
  else Ok path.

(** The inner loop: one entry of [names] per part of the template. *)
Definition expand (options : object) (parts : list string)
    : list (option string) :=
  map (λ part,
        if is_variable part then get_prop (substring1 part) options
        else Some part)
      parts.

Fixpoint all_strings (names : list (option string)) : option (list string) :=
  match names with
  | [] => Some []
  | Some s :: rest =>
      match all_strings rest with
      | Some l => Some (s :: l)
      | None => None
      end
  | None :: _ => None
  end.

Definition err_join_arg : error :=
  set_code "ERR_INVALID_ARG_TYPE"
    (new_TypeError ("The " +:+ dquote +:+ "path" +:+ dquote
                    +:+ " argument must be of type string. Received undefined")).

(** [join(...names)]: Node's [join] throws on an argument that is not
    a string. *)
Definition join_names (names : list (option string)) : M string :=
  match all_strings names with
  | Some l => ret (join l)
  | None => throw err_join_arg
  end.

(** The three not-found cases of the [catch] clause. *)
Definition is_not_found (e : error) : bool :=
  match err_code e with
  | Some c =>
      String.eqb c "MODULE_NOT_FOUND"
      || String.eqb c "QUALIFIED_PATH_RESOLUTION_FAILED"
      || not_find_test (err_message e)
  | None => not_find_test (err_message e)
  end.

(** [e.code] on the caught value: reading a property of [null] or of
    [undefined] throws a [TypeError]; the message is the one of V8 since
    Node 16.9. *)
Definition err_read_code (what : string) : error :=
  new_TypeError ("Cannot read properties of " +:+ what +:+ " (reading 'code')").

Definition read_code_fails (x : thrown) : option error :=
  match x with
  | ThrownValue VUndefined => Some (err_read_code "undefined")
  | ThrownValue VNull => Some (err_read_code "null")
  | _ => None
  end.

(** What the tests of the [catch] clause read of a caught value that is
    not an error object: no [code], and [undefined] as the [message], which
    the regular expression tests as the text [undefined]. *)
Definition no_error_properties : error :=
  {| err_class := ClsError; err_message := "undefined"; err_code := None;
     err_path := None; err_url := None; err_tries := None |}.

Definition thrown_view (x : thrown) : error :=
  match x with
  | ThrownError e => e
  | ThrownValue _ => no_error_properties
  end.

(** The loop over [paths]: [templates] are the entries still to visit,
    [tries] the files pushed so far. *)
Fixpoint search (W : World) (key : string) (options : object)
    (templates : list (list string)) (tries : list string) : M value :=
  match templates with
  | [] => throw (err_not_found tries)
  | parts :: rest =>
      let* file := join_names (expand options parts) in
      let tries := tries ++ [file] in
      try_catch (call_loader W file)
        (λ binding,
          let* _ := cache_set key binding in
          ret binding)
        (λ e,
          match read_code_fails e with
          | Some type_error => throw type_error
          | None =>
              if is_not_found (thrown_view e)
              then search W key options rest tries
              else throw e
          end)
  end.

Definition err_name : error :=
  new_TypeError (dquote +:+ "name" +:+ dquote +:+ " must be a string.").

Definition err_path_arg : error :=
  new_TypeError (dquote +:+ "path" +:+ dquote +:+ " must be a string.").

(** [extname(name) !== '.node'] then [name += '.node'] *)
Definition normalize_name (name : string) : string :=
  if String.eqb (extname name) ".node" then name else name +:+ ".node".

Definition cache_key (name path : string) : string :=
  name +:+ nul +:+ path.

Definition make_options (root name : string) : object :=
  set_prop "name" name (set_prop "root" root (Object_create defaults)).

(** The body of [loady] after the cache check. *)
Definition locate_and_load (W : World) (key name path : string) : M value :=
  let* root := getRoot W path in
  let options := make_options root name in
  search W key options paths [].

Definition loady (W : World) (name path : value) : M value :=
  match name with
  | VString name =>
      match path with
      | VString path =>
          let name := normalize_name name in
          let* path := of_result (ensurePath path) in
          let key := cache_key name path in
          let* hit := cache_get key in
          if truthy hit then ret hit
          else locate_and_load W key name path
      | _ => throw err_path_arg
      end
  | _ => throw err_name
  end.

(** *** Notions used to state the properties *)

(** The value of the test of [has_marker]. *)
Definition marker (W : World) (root : string) : bool :=
  fs_exists W (join [root; "package.json"])
  || fs_exists W (join [root; "node_modules"]).

(** The directory reached from [start] after [k] steps of [dirname]. *)
Definition ancestor (k : nat) (start : string) : string :=
  Nat.iter k dirname start.

(** The file that one iteration of the loop of [loady] hands to the
    loader, when [join] accepts the names. *)
Definition candidate (options : object) (parts : list string) : option string :=
  join <$> all_strings (expand options parts).

(** The templates of [paths], expanded by hand in their order. *)
Definition template_order (root name : string) : list string := [
  join [root; "build"; name];
  join [root; "build"; "Debug"; name];
  join [root; "build"; "Release"; name];
  join [root; name];
  join [root; "Debug"; name];
  join [root; "Release"; name];
  join [root; "MinSizeRel"; name];
  join [root; "RelWithDebInfo"; name];
  join [root; "out"; "Debug"; name];
  join [root; "Debug"; name];
  join [root; "out"; "Release"; name];
  join [root; "Release"; name];
  join [root; "build"; "default"; name];
  join [root; compiled_dir; versions_node P; platform P; arch P; name];
  join [root; "addon-build"; "release"; "install-root"; name];
  join [root; "addon-build"; "debug"; "install-root"; name];
  join [root; "addon-build"; "default"; "install-root"; name];
  join [root; "lib"; "binding";
        "node-v" +:+ versions_modules P +:+ "-" +:+ platform P +:+ "-" +:+ arch P;
        name]
].

(** The key under which a call with these arguments consults the cache,
    once [ensurePath] has accepted the origin. *)
Definition key_of_call (name path : string) : result string :=
  match ensurePath path with
  | Ok dir => Ok (cache_key (normalize_name name) dir)
  | Throw e => Throw e
  | Hang => Hang
  end.

(** The [catch] clause goes on to the next candidate: the caught value
    is classified as not found. *)
Definition classified (x : thrown) : bool :=
  match read_code_fails x with
  | Some _ => false
  | None => is_not_found (thrown_view x)
  end.

(** What leaves the [catch] clause when it does not go on: the caught
    value, or the [TypeError] of reading its [code]. *)
Definition rethrown (x : thrown) : thrown :=
  match read_code_fails x with
  | Some type_error => ThrownError type_error
  | None => x
  end.

(** Loading [file] throws an error that the [catch] clause classifies
    as not found. *)
Definition reports_not_found (W : World) (file : string) : bool :=
  match loader W file with
  | Throw x => classified x
  | _ => false
  end.

(** The outcome of the iteration that loads [file], when the loop does
    not go on after it. *)
Definition load_outcome (W : World) (file : string) : result value :=
  match loader W file with
  | Throw x => Throw (rethrown x)
  | r => r
  end.

(** How many leading files of the list report not found. *)
Fixpoint not_found_prefix (W : World) (files : list string) : nat :=
  match files with
  | [] => 0
  | file :: rest =>
      if reports_not_found W file then S (not_found_prefix W rest) else 0
  end.

End Loady.

(** ** Node's POSIX [path] module

    The functions of [path.posix] that the program calls, after Node's
    [lib/path.js]: [dirname] and [extname] scan the characters from the
    right as Node does; [normalize], [join] and [resolve] work on the
    [/]-separated segments, where Node scans characters. *)

Module Posix.

Definition is_slash (c : ascii) : bool := Ascii.eqb c "/"%char.
Definition is_dot (c : ascii) : bool := Ascii.eqb c "."%char.

Fixpoint drop_while (f : ascii → bool) (l : list ascii) : list ascii :=
  match l with
  | [] => []
  | c :: l' => if f c then drop_while f l' else l
  end.

Fixpoint take_while (f : ascii → bool) (l : list ascii) : list ascii :=
  match l with
  | [] => []
  | c :: l' => if f c then c :: take_while f l' else []
  end.

Definition not_slash (c : ascii) : bool := negb (is_slash c).
Definition not_dot (c : ascii) : bool := negb (is_dot c).

(** [posix.dirname]: the scan runs over the indices [length-1 .. 1],
    here the reversed tail; [r2] starts at the slash found at [end]. *)
Definition dirname (path : string) : string :=
  match path with
  | EmptyString => "."
  | String c0 rest =>
      let hasRoot := is_slash c0 in
      let r1 := drop_while is_slash (rev (list_ascii_of_string rest)) in
      let r2 := drop_while not_slash r1 in
      match r2 with
      | [] => if hasRoot then "/" else "."
      | _ :: before =>
          if hasRoot && (length r2 =? 1)%nat then "//"
          else String c0 (string_of_list_ascii (rev before))
      end
  end.

(** [posix.extname]: [base] is the last component, reversed; the
    extension runs from its last dot, unless nothing precedes that dot
    or the component is [..]. *)
Definition extname (path : string) : string :=
  let r1 := drop_while is_slash (rev (list_ascii_of_string path)) in
  let base := take_while not_slash r1 in
  let ext := take_while not_dot base in
  match drop_while not_dot base with
  | [] => ""
  | _ :: [] => ""
  | _ :: before =>
      match ext, before with
      | [], [d] => if is_dot d then "" else "."
      | _, _ => string_of_list_ascii (rev (ext ++ ["."%char]))
      end
  end.

Fixpoint split_on (l cur : list ascii) : list (list ascii) :=
  match l with
  | [] => [rev cur]
  | c :: l' =>
      if is_slash c then rev cur :: split_on l' []
      else split_on l' (c :: cur)
  end.

Definition segments (path : string) : list string :=
  map string_of_list_ascii (split_on (list_ascii_of_string path) []).

(** One segment of [normalizeString]; [stack] holds the segments kept
    so far, last first. *)
Definition push_segment (allowAboveRoot : bool) (stack : list string)
    (seg : string) : list string :=
  if String.eqb seg "" || String.eqb seg "." then stack
  else if String.eqb seg ".." then
    match stack with
    | top :: below =>
        if String.eqb top ".." then
          if allowAboveRoot then seg :: stack else stack
        else below
    | [] => if allowAboveRoot then [seg] else []
    end
  else seg :: stack.

Fixpoint join_with_slash (l : list string) : string :=
  match l with
  | [] => ""
  | [x] => x
  | x :: rest => x +:+ "/" +:+ join_with_slash rest
  end.

Definition normalizeString (path : string) (allowAboveRoot : bool) : string :=
  join_with_slash
    (rev (fold_left (push_segment allowAboveRoot) (segments path) [])).

Definition isAbsolute (path : string) : bool :=
  match path with
  | String c _ => is_slash c
  | EmptyString => false
  end.

Definition ends_with_slash (path : string) : bool :=
  match rev (list_ascii_of_string path) with
  | c :: _ => is_slash c
  | [] => false
  end.

Definition normalize (path : string) : string :=
  if String.eqb path "" then "."
  else
    let isAbs := isAbsolute path in
    let trailing := ends_with_slash path in
    let p := normalizeString path (negb isAbs) in
    if String.eqb p "" then
      if isAbs then "/" else if trailing then "./" else "."
    else
      let p := if trailing then p +:+ "/" else p in
      if isAbs then "/" +:+ p else p.

Definition join (args : list string) : string :=
  match filter (λ a, negb (String.eqb a "")) args with
  | [] => "."
  | parts => normalize (join_with_slash parts)
  end.

(** [posix.resolve(path)] with one argument, in working directory
    [cwd]. *)
Definition resolve (cwd path : string) : string :=
  let r0 := if String.eqb path "" then "" else path +:+ "/" in
  let abs0 := isAbsolute path in
  let r1 :=
    if abs0 then r0
    else if String.eqb cwd "" then r0 else cwd +:+ "/" +:+ r0 in
  let abs1 := if abs0 then true else isAbsolute cwd in
  let p := normalizeString r1 (negb abs1) in
  if abs1 then "/" +:+ p
  else if String.eqb p "" then "." else p.

(** The measure that [dirname] decreases until it reaches [.] or [/]. *)
Definition depth (path : string) : nat :=
  if String.eqb path "." || String.eqb path "/" then 0
  else S (String.length path).

End Posix.

#[export] Instance posix_path : PathModule := {|
  dirname := Posix.dirname;
  extname := Posix.extname;
  join := Posix.join;
  resolve := Posix.resolve;
  isAbsolute := Posix.isAbsolute;
  depth := Posix.depth
|}.

(** ** A concrete host *)

Module Host.

Definition process : Process := {|
  arch := "x64";
  platform := "linux";
  versions_modules := "93";
  versions_node := "16.13.0";
  env_NODE_BINDINGS_COMPILED_DIR := None
|}.

Definition plain_char (c : ascii) : bool :=
  let n := nat_of_ascii c in
  ((97 <=? n) && (n <=? 122) || (65 <=? n) && (n <=? 90)
   || (48 <=? n) && (n <=? 57) || (n =? 45) || (n =? 46) || (n =? 47)
   || (n =? 95))%nat.

Fixpoint drop_chars (n : nat) (s : string) : string :=
  match n, s with
  | S n', String _ s' => drop_chars n' s'
  | _, _ => s
  end.

Definition letter (c : ascii) : bool :=
  let n := nat_of_ascii c in
  ((97 <=? n) && (n <=? 122) || (65 <=? n) && (n <=? 90))%nat.

Definition letter_or_digit (c : ascii) : bool :=
  let n := nat_of_ascii c in
  letter c || ((48 <=? n) && (n <=? 57))%nat.

Fixpoint split_labels (l cur : list ascii) : list (list ascii) :=
  match l with
  | [] => [rev cur]
  | c :: l' =>
      if Posix.is_dot c then rev cur :: split_labels l' []
      else split_labels l' (c :: cur)
  end.

(** A host name whose labels, separated by single dots, begin with a
    letter and hold letters and digits: no label is a number. *)
Definition simple_host (h : string) : bool :=
  forallb (λ label,
             match label with
             | [] => false
             | c :: rest => letter c && forallb letter_or_digit rest
             end)
    (split_labels (list_ascii_of_string h) []).

Definition err_invalid_url : error :=
  set_code "ERR_INVALID_URL" (new_TypeError "Invalid URL").

Definition err_invalid_file_url_host : error :=
  set_code "ERR_INVALID_FILE_URL_HOST"
    (new_TypeError ("File URL host must be " +:+ dquote +:+ "localhost"
                    +:+ dquote +:+ " or empty on linux")).

(** One segment of the URL parser's path state; [stack] holds the segments
    kept so far, last first.  A [..] drops the segment before it, and a
    [.] or [..] that ends the text leaves an empty segment. *)
Definition url_segment (last : bool) (stack : list string) (seg : string)
    : list string :=
  if String.eqb seg ".." then
    let stack' := match stack with _ :: below => below | [] => [] end in
    if last then "" :: stack' else stack'
  else if String.eqb seg "." then
    if last then "" :: stack else stack
  else seg :: stack.

Fixpoint url_path (segs stack : list string) : list string :=
  match segs with
  | [] => stack
  | [seg] => url_segment true stack seg
  | seg :: rest => url_path rest (url_segment false stack seg)
  end.

(** The [pathname] of the URL whose path text is [r]. *)
Definition pathname (r : string) : string :=
  "/" +:+ Posix.join_with_slash (rev (url_path (Posix.segments r) [])).

(** [url.fileURLToPath] of a POSIX host, on the texts [file:] followed by
    letters, digits, [-], [_], [.] and [/].  After [file://] comes a host,
    up to the next [/]: an empty host or [localhost] is dropped, and any
    other host name is refused with [ERR_INVALID_FILE_URL_HOST].  The rest
    is the path, whose [.] and [..] segments the URL parser resolves;
    nothing is percent-encoded in such a text, so the path is returned as
    parsed.  Hosts are covered when they are names of letters and digits
    whose labels begin with a letter, in either case ([LOCALHOST] is
    [localhost]); every other text, where Node may convert or throw another
    error, gets [ERR_INVALID_URL] and is used by no scenario. *)
Definition fileURLToPath (u : string) : error + string :=
  let rest := drop_chars 5 u in
  if negb (String.prefix "file:" u
           && forallb plain_char (list_ascii_of_string rest))
  then inl err_invalid_url
  else if String.prefix "//" rest then
    let after := list_ascii_of_string (drop_chars 2 rest) in
    let host := string_of_list_ascii (Posix.take_while Posix.not_slash after) in
    let remaining :=
      string_of_list_ascii (Posix.drop_while Posix.not_slash after) in
    if String.eqb host "" || String.eqb (lower_string host) "localhost"
    then inr (pathname (drop_chars 1 remaining))
    else if simple_host host then inl err_invalid_file_url_host
    else inl err_invalid_url
  else if String.prefix "/" rest then inr (pathname (drop_chars 1 rest))
  else inr (pathname rest).

Definition url : UrlModule := Build_UrlModule (Some fileURLToPath).

(** A host without [url.fileURLToPath]. *)
Definition old_url : UrlModule := Build_UrlModule None.

Definition err_module_not_found (file : string) : error :=
  set_code "MODULE_NOT_FOUND" (new_Error ("Cannot find module '" +:+ file +:+ "'")).

Definition member (p : string) (l : list string) : bool :=
  existsb (String.eqb p) l.

(** A world given by the files that exist and the bindings that load;
    every other file is reported as a module that is not found. *)
Definition world (dir : string) (files : list string)
    (bindings : list (string * result value)) : World := {|
  cwd := dir;
  fs_exists := λ p, member p files;
  loader := λ file,
    match list_find (λ b, b.1 = file) bindings with
    | Some (_, (_, r)) => r
    | None => Throw (err_module_not_found file)
    end
|}.

End Host.

(** [loady] on the POSIX host. *)
Definition run := @loady posix_path Host.process Host.url.

(** ** The worlds of the scenarios *)

(** The project of the scenarios: [/proj] holds a [package.json]. *)
Definition proj_files : list string := ["/proj/package.json"].

(** Nothing can be loaded: every candidate is a module not found. *)
Definition world_empty_project : World := Host.world "/" proj_files [].

(** The third candidate is a file that the loader rejects. *)
Definition err_bad_binary : error :=
  set_code "ERR_DLOPEN_FAILED" (new_Error "invalid ELF header").

Definition world_broken_release : World :=
  Host.world "/" proj_files [("/proj/build/Release/foo.node", Throw err_bad_binary)].

(** The same project, where the first candidate is a module whose body is
    [throw null]. *)
Definition world_throws_null : World :=
  Host.world "/" proj_files [("/proj/build/foo.node", Throw (ThrownValue VNull))].

(** The first candidate loads and exports an object. *)
Definition world_built : World :=
  Host.world "/" proj_files [("/proj/build/foo.node", Ok (VObject 1))].

(** The first candidate loads and exports the number 0. *)
Definition world_exports_zero : World :=
  Host.world "/" proj_files [("/proj/build/foo.node", Ok (VNumber 0))].

(** No file exists at all. *)
Definition world_bare : World := Host.world "/" [] [].

(** The chain [/a/b/c], [/a/b], [/a], [/] with a marker at [/a] only. *)
Definition world_chain : World := Host.world "/" ["/a/package.json"] [].

Definition foo_key : string := cache_key "foo.node" "/proj".

(** A cache that holds the binding of another module. *)
Definition other_cache : gmap string value :=
  {[ cache_key "bar.node" "/proj" := VObject 7 ]}.

(** ** Notions used by the further properties *)

Section Probes.
Context `{PM : PathModule}.

(** The calls of [existsSync] that one test of [has_marker] makes:
    [node_modules] is looked for only when [package.json] is missing. *)
Definition marker_events (W : World) (root : string) : list event :=
  EvExists (join [root; "package.json"])
  :: (if fs_exists W (join [root; "package.json"]) then []
      else [EvExists (join [root; "node_modules"])]).

(** The calls made while testing [n] directories, climbing from [start]. *)
Fixpoint climb_events (W : World) (n : nat) (start : string) : list event :=
  match n with
  | O => []
  | S n' => marker_events W start ++ climb_events W n' (dirname start)
  end.

End Probes.

(** The paths handed to [existsSync], in the order of the calls. *)
Fixpoint probes (t : list event) : list string :=
  match t with
  | [] => []
  | EvExists p :: t' => p :: probes t'
  | EvLoad _ :: t' => probes t'
  end.

(** The process with another value of [NODE_BINDINGS_COMPILED_DIR]. *)
Definition with_compiled_env (e : option string) (P : Process) : Process := {|
  arch := arch P;
  platform := platform P;
  versions_modules := versions_modules P;
  versions_node := versions_node P;
  env_NODE_BINDINGS_COMPILED_DIR := e
|}.

(** The third candidate is the first that loads; a later one would too. *)
Definition world_release_built : World :=
  Host.world "/" proj_files
    [("/proj/build/Release/foo.node", Ok (VObject 2));
     ("/proj/foo.node", Ok (VObject 3))].

(** The binary of the first candidate is also a file that exists. *)
Definition world_with_binary : World :=
  Host.world "/" ["/proj/package.json"; "/proj/build/foo.node"]
    [("/proj/build/foo.node", Ok (VObject 1))].

(** A POSIX file name: not empty, without [/], and neither [.] nor [..]. *)
Definition plain_name (m : string) : Prop :=
  forallb Posix.not_slash (list_ascii_of_string m) = true
  ∧ m ≠ "" ∧ m ≠ "." ∧ m ≠ "..".

(** An error without a code whose message holds the phrase in capitals. *)
Definition err_shouting : error := new_Error "COULD NOT FIND THE FILE".

(** * Properties *)

(** ** The laws of the POSIX path module *)

Module PosixFacts.
Import Posix.

Lemma drop_while_length f l : (length (drop_while f l) <= length l)%nat.
Proof.
  induction l as [|c l IH]; simpl; [lia|].
  destruct (f c); simpl; lia.
Qed.

Lemma drop_while_head f l c l' : drop_while f l = c :: l' → f c = false.
Proof.
  induction l as [|a l IH]; simpl; [discriminate|].
  destruct (f a) eqn:Hfa; [exact IH|].
  intros [= <- _]. exact Hfa.
Qed.

Lemma component_shorter r c l' :
  drop_while not_slash (drop_while is_slash r) = c :: l' →
  (S (length l') < length (drop_while is_slash r))%nat.
Proof.
  destruct (drop_while is_slash r) as [|a r1] eqn:Hr1; simpl; [discriminate|].
  apply drop_while_head in Hr1.
  unfold not_slash at 1. rewrite Hr1. simpl. intros Hr2.
  pose proof (drop_while_length not_slash r1) as Hlen.
  rewrite Hr2 in Hlen. simpl in Hlen. lia.
Qed.

Lemma length_string_of_list l :
  String.length (string_of_list_ascii l) = length l.
Proof. induction l as [|c l IH]; simpl; congruence. Qed.

Lemma length_list_of_string s :
  length (list_ascii_of_string s) = String.length s.
Proof. induction s as [|c s IH]; simpl; congruence. Qed.

Lemma depth_bound p : (depth p <= S (String.length p))%nat.
Proof. unfold depth. destruct (_ || _); lia. Qed.

Lemma depth_long p : (2 <= String.length p)%nat → depth p = S (String.length p).
Proof.
  unfold depth. intros Hlen.
  destruct (String.eqb_spec p ".") as [->|_]; [simpl in Hlen; lia|].
  destruct (String.eqb_spec p "/") as [->|_]; [simpl in Hlen; lia|].
  reflexivity.
Qed.

Lemma depth_pos p : p ≠ "." → p ≠ "/" → (0 < depth p)%nat.
Proof.
  unfold depth. intros H1 H2.
  destruct (String.eqb_spec p "."); [done|].
  destruct (String.eqb_spec p "/"); [done|].
  simpl. lia.
Qed.

Lemma dirname_depth p : dirname p ≠ p → (depth (dirname p) < depth p)%nat.
Proof.
  destruct p as [|c0 rest]; [intros _; vm_compute; lia|].
  unfold dirname.
  set (r := rev (list_ascii_of_string rest)).
  destruct (drop_while not_slash (drop_while is_slash r)) as [|x before] eqn:Hr2.
  - intros Hne. destruct (is_slash c0) eqn:Hc0.
    + change (depth "/") with 0%nat. apply depth_pos; [|congruence].
      intros [= -> ->]. discriminate Hc0.
    + change (depth ".") with 0%nat. apply depth_pos; [congruence|].
      intros [= -> ->]. discriminate Hc0.
  - intros _.
    pose proof (component_shorter _ _ _ Hr2) as Hlt.
    pose proof (drop_while_length is_slash r) as Hle.
    assert (length r = String.length rest) as Hr.
    { unfold r. rewrite length_rev. apply length_list_of_string. }
    assert (depth (String c0 rest) = S (S (String.length rest))) as ->.
    { apply depth_long. simpl. lia. }
    destruct (is_slash c0 && (length (x :: before) =? 1)%nat).
    + eapply Nat.le_lt_trans; [apply depth_bound|]. simpl. lia.
    + eapply Nat.le_lt_trans; [apply depth_bound|]. simpl.
      rewrite length_string_of_list, length_rev. lia.
Qed.

Lemma isAbsolute_cons c s : isAbsolute (String c s) = is_slash c.
Proof. reflexivity. Qed.

Lemma dirname_absolute p : isAbsolute p = true → isAbsolute (dirname p) = true.
Proof.
  destruct p as [|c0 rest]; [discriminate|].
  rewrite isAbsolute_cons. intros Hc0. unfold dirname. rewrite Hc0.
  destruct (drop_while not_slash _) as [|x before]; [reflexivity|].
  destruct (_ && _); [reflexivity|].
  rewrite isAbsolute_cons. exact Hc0.
Qed.

Lemma resolve_absolute cwd p :
  isAbsolute cwd = true → isAbsolute (resolve cwd p) = true.
Proof.
  intros Hcwd. unfold resolve. rewrite Hcwd.
  destruct (isAbsolute p); reflexivity.
Qed.

Lemma normalize_absolute p : isAbsolute p = true → isAbsolute (normalize p) = true.
Proof.
  intros Habs. unfold normalize. rewrite Habs.
  destruct (String.eqb_spec p "") as [->|_]; [discriminate|].
  destruct (String.eqb _ ""); [reflexivity|].
  reflexivity.
Qed.

Lemma join_with_slash_absolute p l :
  isAbsolute p = true → isAbsolute (join_with_slash (p :: l)) = true.
Proof.
  destruct p as [|c s]; [discriminate|].
  destruct l; simpl; auto.
Qed.

Lemma join_absolute p l : isAbsolute p = true → isAbsolute (join (p :: l)) = true.
Proof.
  intros Habs. unfold join. rewrite filter_cons.
  destruct (decide _) as [Hne|Hne].
  - apply normalize_absolute, join_with_slash_absolute, Habs.
  - destruct p; [discriminate|]. simpl in Hne. contradiction Hne. exact I.
Qed.

End PosixFacts.

#[export] Instance posix_laws : PathLaws posix_path.
Proof.
  split.
  - exact PosixFacts.dirname_depth.
  - exact PosixFacts.resolve_absolute.
  - exact PosixFacts.dirname_absolute.
  - exact PosixFacts.join_absolute.
Qed.

(** ** The monad *)

Lemma bind_Ok {A B} (m : M A) (f : A → M B) c a :
  m c = (Ok a, c, []) → bind m f c = f a c.
Proof.
  intros Hm. unfold bind. rewrite Hm.
  destruct (f a c) as [[r c2] t2]. reflexivity.
Qed.

Lemma cache_key_nil p : cache_key "" p = String "000"%char p.
Proof. reflexivity. Qed.

Lemma cache_key_cons a n p : cache_key (String a n) p = String a (cache_key n p).
Proof. reflexivity. Qed.

(** A key always contains the separator. *)
Lemma has_nul_cache_key n p : has_nul (cache_key n p) = true.
Proof.
  induction n as [|a n IH]; [reflexivity|].
  rewrite cache_key_cons. simpl. rewrite IH. apply orb_true_r.
Qed.

Lemma attempts_app t1 t2 : attempts (t1 ++ t2) = attempts t1 ++ attempts t2.
Proof.
  induction t1 as [|[p|file] t1 IH]; simpl; [reflexivity|exact IH|].
  f_equal. exact IH.
Qed.

Lemma attempts_loads files : attempts (map EvLoad files) = files.
Proof. induction files as [|f files IH]; simpl; congruence. Qed.

(** ** Root discovery *)

Section RootFacts.
Context `{PM : PathModule} (P : Process) (U : UrlModule).

(** The test records its calls and leaves the cache alone. *)
Lemma has_marker_frame W root :
  ∃ t, attempts t = [] ∧ ∀ c, has_marker W root c = (Ok (marker W root), c, t).
Proof.
  unfold has_marker, marker, bind, existsSync.
  destruct (fs_exists W (join [root; "package.json"])); simpl;
    eexists; (split; [|intros c; reflexivity]); reflexivity.
Qed.

Lemma has_marker_run W root c :
  ∃ t, has_marker W root c = (Ok (marker W root), c, t) ∧ attempts t = [].
Proof. destruct (has_marker_frame W root) as (t & Ht & Hrun). eauto. Qed.

Lemma ancestor_succ k start : ancestor (S k) start = ancestor k (dirname start).
Proof. unfold ancestor. apply Nat.iter_succ_r. Qed.

Lemma ancestor_fixed k start : dirname start = start → ancestor k start = start.
Proof.
  intros Hfix. induction k as [|k IH]; [reflexivity|].
  rewrite ancestor_succ, Hfix. exact IH.
Qed.

Lemma ancestor_add j k start : ancestor (j + k) start = ancestor k (ancestor j start).
Proof.
  revert start. induction j as [|j IH]; intros start; [reflexivity|].
  simpl plus. rewrite !ancestor_succ. apply IH.
Qed.

(** The loop never changes the cache and never calls the loader, and
    what it does is the same whatever the cache holds. *)
Lemma getRoot_loop_uniform W path fuel root :
  ∃ r t, attempts t = [] ∧ ∀ c, getRoot_loop W path fuel root c = (r, c, t).
Proof.
  revert root. induction fuel as [|fuel IH]; intros root; simpl.
  - exists Hang, []. split; [reflexivity|intros c; reflexivity].
  - destruct (has_marker_frame W root) as (t0 & Ht0 & Hm).
    unfold bind at 1.
    destruct (marker W root).
    + exists (Ok root), (t0 ++ []). split; [rewrite app_nil_r; exact Ht0|].
      intros c. rewrite Hm. reflexivity.
    + destruct (String.eqb (dirname root) root).
      * exists (Throw (err_no_root path)), (t0 ++ []).
        split; [rewrite app_nil_r; exact Ht0|].
        intros c. rewrite Hm. reflexivity.
      * destruct (IH (dirname root)) as (r & t & Ht & Hrun).
        exists r, (t0 ++ t). split; [rewrite attempts_app, Ht0, Ht; reflexivity|].
        intros c. rewrite Hm, Hrun. reflexivity.
Qed.

Lemma getRoot_loop_frame W path fuel root c :
  ∃ r t, getRoot_loop W path fuel root c = (r, c, t) ∧ attempts t = [].
Proof.
  destruct (getRoot_loop_uniform W path fuel root) as (r & t & Ht & Hrun).
  eauto.
Qed.

(** With the laws of the path module the budget is never exhausted: the
    loop stops at the first directory of the chain that holds a marker,
    or at the filesystem root when none does. *)
Lemma getRoot_loop_total `{!PathLaws PM} W path fuel root c :
  (depth root < fuel)%nat →
  ∃ m t,
    (∀ j, (j < m)%nat →
       marker W (ancestor j root) = false
       ∧ dirname (ancestor j root) ≠ ancestor j root)
    ∧ ((marker W (ancestor m root) = true
        ∧ getRoot_loop W path fuel root c = (Ok (ancestor m root), c, t))
       ∨ (marker W (ancestor m root) = false
          ∧ dirname (ancestor m root) = ancestor m root
          ∧ getRoot_loop W path fuel root c = (Throw (err_no_root path), c, t))).
Proof.
  revert root. induction fuel as [|fuel IH]; intros root Hfuel; [lia|].
  simpl. destruct (has_marker_run W root c) as (t0 & Hm & _).
  unfold bind. rewrite Hm.
  destruct (marker W root) eqn:Hmark.
  - exists 0%nat, (t0 ++ []). split; [intros j Hj; lia|].
    left. split; [exact Hmark|reflexivity].
  - destruct (String.eqb_spec (dirname root) root) as [Hfix|Hstep].
    + exists 0%nat, (t0 ++ []). split; [intros j Hj; lia|].
      right. split; [exact Hmark|]. split; [exact Hfix|reflexivity].
    + pose proof (dirname_depth root Hstep) as Hdepth.
      destruct (IH (dirname root)) as (m & t & Hbefore & Hstop); [lia|].
      exists (S m), (t0 ++ t). split.
      * intros [|j] Hj; [split; [exact Hmark|exact Hstep]|].
        rewrite ancestor_succ. apply Hbefore. lia.
      * rewrite ancestor_succ.
        destruct Hstop as [(Hfound & Hrun)|(Hnone & Hfix & Hrun)]; rewrite Hrun.
        -- left. split; [exact Hfound|reflexivity].
        -- right. split; [exact Hnone|]. split; [exact Hfix|reflexivity].
Qed.

(** The root is an absolute directory when the working directory is. *)
Lemma ancestor_absolute `{!PathLaws PM} k start :
  isAbsolute start = true → isAbsolute (ancestor k start) = true.
Proof.
  revert start. induction k as [|k IH]; intros start Habs; [exact Habs|].
  rewrite ancestor_succ. apply IH, dirname_absolute, Habs.
Qed.

Lemma getRoot_absolute `{!PathLaws PM} W path c root tg :
  getRoot W path c = (Ok root, c, tg) →
  isAbsolute (cwd W) = true →
  isAbsolute root = true.
Proof.
  unfold getRoot. intros Hrun Hcwd.
  destruct (getRoot_loop_total W path (S (depth (resolve (cwd W) path)))
              (resolve (cwd W) path) c) as (m & t & _ & Hstop); [lia|].
  destruct Hstop as [(_ & Hfound)|(_ & _ & Hnone)]; [|congruence].
  rewrite Hfound in Hrun. injection Hrun as <- _.
  apply ancestor_absolute, resolve_absolute, Hcwd.
Qed.

End RootFacts.

(** ** The search loop *)

Section SearchFacts.
Context `{PM : PathModule} (P : Process) (U : UrlModule).

(** Every template of [paths] expands to a file: the loop never stops
    on an argument that [join] rejects. *)
Lemma candidates_make_options root name :
  map (candidate (make_options P root name)) paths
  = map Some (template_order P root name).
Proof. reflexivity. Qed.

Lemma length_template_order root name :
  length (template_order P root name) = 18%nat.
Proof. reflexivity. Qed.

Lemma join_names_run options parts c :
  join_names (expand options parts) c
  = match candidate options parts with
    | Some file => (Ok file, c, [])
    | None => (Throw err_join_arg, c, [])
    end.
Proof.
  unfold join_names, candidate.
  destruct (all_strings (expand options parts)); reflexivity.
Qed.

(** One iteration of the loop. *)
Lemma search_cons W key options parts rest tries c :
  search W key options (parts :: rest) tries c
  = match candidate options parts with
    | None => (Throw err_join_arg, c, [])
    | Some f =>
        match loader W f with
        | Ok v => (Ok v, <[key := v]> c, [EvLoad f])
        | Throw x =>
            if classified x then
              match search W key options rest (tries ++ [f]) c with
              | (r, c', t) => (r, c', EvLoad f :: t)
              end
            else (Throw (rethrown x), c, [EvLoad f])
        | Hang => (Hang, c, [EvLoad f])
        end
    end.
Proof.
  cbn [search]. unfold bind at 1. rewrite join_names_run.
  destruct (candidate options parts) as [f|]; [|reflexivity].
  unfold try_catch, call_loader, classified, rethrown.
  destruct (loader W f) as [v|x|]; [reflexivity| |reflexivity].
  destruct (read_code_fails x); [reflexivity|].
  destruct (is_not_found (thrown_view x)); [|reflexivity].
  destruct (search W key options rest (tries ++ [f]) c) as [[r c'] t].
  reflexivity.
Qed.

Lemma not_found_prefix_le W files :
  (not_found_prefix W files <= length files)%nat.
Proof.
  induction files as [|f files IH]; simpl; [lia|].
  destruct (reports_not_found W f); simpl; lia.
Qed.

Lemma not_found_prefix_before W files i f :
  (i < not_found_prefix W files)%nat →
  files !! i = Some f →
  reports_not_found W f = true.
Proof.
  revert i. induction files as [|f0 files IH]; intros i; simpl; [lia|].
  destruct (reports_not_found W f0) eqn:Hf0; [|lia].
  destruct i as [|i]; simpl.
  - intros _ [= <-]. exact Hf0.
  - intros Hi. apply IH. lia.
Qed.

Lemma not_found_prefix_stop W files f :
  files !! not_found_prefix W files = Some f →
  reports_not_found W f = false.
Proof.
  induction files as [|f0 files IH]; simpl; [discriminate|].
  destruct (reports_not_found W f0) eqn:Hf0; simpl.
  - exact IH.
  - intros [= <-]. exact Hf0.
Qed.

Lemma not_found_prefix_all W files :
  Forall (λ f, reports_not_found W f = true) files →
  not_found_prefix W files = length files.
Proof.
  induction 1 as [|f files Hf _ IH]; simpl; [reflexivity|].
  rewrite Hf, IH. reflexivity.
Qed.

(** The loop as a whole: it loads the files that report not found, in
    order, and stops at the first one that does not. *)
Lemma search_run W key options templates files tries c :
  map (candidate options) templates = map Some files →
  search W key options templates tries c
  = match files !! not_found_prefix W files with
    | None => (Throw (err_not_found (tries ++ files)), c, map EvLoad files)
    | Some f =>
        (load_outcome W f,
         match loader W f with Ok v => <[key := v]> c | _ => c end,
         map EvLoad (take (S (not_found_prefix W files)) files))
    end.
Proof.
  revert files tries.
  induction templates as [|parts rest IH]; intros [|f files] tries Hfiles;
    try discriminate Hfiles.
  - simpl. rewrite app_nil_r. reflexivity.
  - injection Hfiles as Hf Hrest.
    rewrite search_cons, Hf. cbn [not_found_prefix].
    unfold reports_not_found, load_outcome.
    destruct (loader W f) as [v|x|] eqn:Hload.
    + cbn. rewrite Hload. reflexivity.
    + destruct (classified x).
      * rewrite (IH files (tries ++ [f]) Hrest). cbn [lookup list_lookup].
        rewrite <- app_assoc. cbn [app].
        destruct (files !! not_found_prefix W files); reflexivity.
      * cbn. rewrite Hload. reflexivity.
    + cbn. rewrite Hload. reflexivity.
Qed.

(** The loop reads nothing of the cache: its outcome and its calls are
    the same whatever the cache holds, and it writes the cache exactly
    when it returns a binding. *)
Lemma search_uniform W key options templates tries :
  ∃ r t, ∀ c,
    search W key options templates tries c
    = (r, match r with Ok v => <[key := v]> c | _ => c end, t).
Proof.
  revert tries. induction templates as [|parts rest IH]; intros tries.
  - exists (Throw (err_not_found tries)), []. intros c. reflexivity.
  - destruct (candidate options parts) as [f|] eqn:Hf.
    2:{ exists (Throw err_join_arg), []. intros c.
        rewrite search_cons, Hf. reflexivity. }
    destruct (loader W f) as [v|x|] eqn:Hload.
    + exists (Ok v), [EvLoad f]. intros c.
      rewrite search_cons, Hf, Hload. reflexivity.
    + destruct (classified x) eqn:He.
      * destruct (IH (tries ++ [f])) as (r & t & Hrun).
        exists r, (EvLoad f :: t). intros c.
        rewrite search_cons, Hf, Hload, He, Hrun. reflexivity.
      * exists (Throw (rethrown x)), [EvLoad f]. intros c.
        rewrite search_cons, Hf, Hload, He. reflexivity.
    + exists Hang, [EvLoad f]. intros c.
      rewrite search_cons, Hf, Hload. reflexivity.
Qed.

Lemma locate_and_load_uniform W key name path :
  ∃ r t, ∀ c,
    locate_and_load P W key name path c
    = (r, match r with Ok v => <[key := v]> c | _ => c end, t).
Proof.
  destruct (getRoot_loop_uniform W path (S (depth (resolve (cwd W) path)))
              (resolve (cwd W) path)) as (r0 & tg & _ & Hroot).
  unfold locate_and_load, bind, getRoot.
  destruct r0 as [root|e|].
  - destruct (search_uniform W key (make_options P root name) paths [])
      as (r & ts & Hsearch).
    exists r, (tg ++ ts). intros c. rewrite Hroot, Hsearch. reflexivity.
  - exists (Throw e), tg. intros c. rewrite Hroot. reflexivity.
  - exists Hang, tg. intros c. rewrite Hroot. reflexivity.
Qed.

Lemma loady_run W name path c :
  loady P U W (VString name) (VString path) c
  = match ensurePath U path with
    | Ok dir =>
        let key := cache_key (normalize_name name) dir in
        let hit := default VUndefined (c !! key) in
        if truthy hit then (Ok hit, c, [])
        else locate_and_load P W key (normalize_name name) dir c
    | Throw e => (Throw e, c, [])
    | Hang => (Hang, c, [])
    end.
Proof.
  unfold loady, of_result.
  destruct (ensurePath U path) as [dir|e|]; try reflexivity.
  erewrite bind_Ok; [|reflexivity].
  erewrite bind_Ok; [|reflexivity].
  destruct (truthy _); reflexivity.
Qed.

(** The two halves of [locate_and_load]. *)
Lemma locate_and_load_run W key name path c :
  ∃ r tg, getRoot W path c = (r, c, tg) ∧ attempts tg = [] ∧
    locate_and_load P W key name path c
    = match r with
      | Ok root =>
          match search W key (make_options P root name) paths [] c with
          | (r', c', ts) => (r', c', tg ++ ts)
          end
      | Throw e => (Throw e, c, tg)
      | Hang => (Hang, c, tg)
      end.
Proof.
  destruct (getRoot_loop_frame W path (S (depth (resolve (cwd W) path)))
              (resolve (cwd W) path) c) as (r & tg & Hrun & Htg).
  exists r, tg. split; [exact Hrun|]. split; [exact Htg|].
  unfold locate_and_load, bind. unfold getRoot in *. rewrite Hrun.
  destruct r; reflexivity.
Qed.


(** After a call has returned a truthy binding, every call whose name
    and converted origin give the same key is answered from the cache. *)
Lemma cached_after_success W W' name path path' dir c v c' t :
  loady P U W (VString name) (VString path) c = (Ok v, c', t) →
  truthy v = true →
  ensurePath U path = Ok dir →
  ensurePath U path' = Ok dir →
  loady P U W' (VString name) (VString path') c' = (Ok v, c', []).
Proof.
  intros Hrun Hv Hdir Hdir'.
  rewrite loady_run, Hdir in Hrun. rewrite loady_run, Hdir'.
  cbn zeta in Hrun |- *.
  destruct (truthy (default VUndefined (c !! _))) eqn:Hhit.
  - injection Hrun as <- <- _. rewrite Hhit. reflexivity.
  - destruct (locate_and_load_uniform W (cache_key (normalize_name name) dir)
                (normalize_name name) dir) as (r & t0 & Huni).
    rewrite Huni in Hrun. injection Hrun as -> <- _.
    rewrite lookup_insert_eq. cbn [from_option id]. rewrite Hv. reflexivity.
Qed.

(** With the laws of the path module and a loader that returns, every
    call returns or throws. *)
Lemma loady_terminates `{!PathLaws PM} W name path c :
  (∀ file, loader W file ≠ Hang) →
  (loady P U W name path c).1.1 ≠ Hang.
Proof.
  intros Hloader.
  destruct name as [| | | |name| | |]; try discriminate.
  destruct path as [| | | |path| | |]; try discriminate.
  rewrite loady_run.
  destruct (ensurePath U path) as [dir|e|] eqn:Hdir; [|discriminate|].
  2:{ unfold ensurePath in Hdir. destruct (is_file_uri path); [|discriminate].
      destruct (fileURLToPath U) as [f|]; [|discriminate].
      destruct (f path); discriminate. }
  cbn zeta. destruct (truthy _); [discriminate|].
  unfold locate_and_load, bind, getRoot.
  destruct (getRoot_loop_total W dir (S (depth (resolve (cwd W) dir)))
              (resolve (cwd W) dir) c) as (m & t & _ & Hstop); [lia|].
  destruct Hstop as [(_ & ->)|(_ & _ & ->)]; [|discriminate].
  rewrite (search_run W _ _ _ _ _ _
             (candidates_make_options (ancestor m (resolve (cwd W) dir))
                (normalize_name name))).
  destruct (_ !! _) as [f|]; [|discriminate].
  cbn. unfold load_outcome. specialize (Hloader f).
  destruct (loader W f); [discriminate|discriminate|exact Hloader].
Qed.

End SearchFacts.

(** ** Fatal errors *)

Section FatalFacts.
Context `{PM : PathModule} (P : Process) (U : UrlModule).




End FatalFacts.

(** * The claims *)

Section Claims.
Context `{PM : PathModule} (P : Process) (U : UrlModule).

(** C1.  The candidate list of a configuration is a function of that
    configuration: the 18 templates of [paths], expanded in their order
    (the entries at positions 10 and 12 repeat those at 5 and 6).  The files
    that a call hands to the loader are the first [k] entries of that list,
    in order; every one of them but the last reported a classified
    not-found failure, and when the last one did too, the list is
    exhausted.  A file is loaded only when [ensurePath] accepts the origin,
    the cache holds no truthy binding for the key and [getRoot] returns a
    root; and whenever that is so, the list is the one of that root and of
    the normalized name, the first candidate is loaded, and [k] is one more
    than the number of leading candidates that report not found, or 18 when
    all of them do. *)
Theorem C1_candidates_in_template_order W name path c :
  (∀ root n,
     map (candidate (make_options P root n)) paths
     = map Some (template_order P root n)
     ∧ length (template_order P root n) = 18%nat
     ∧ template_order P root n !! 9%nat = template_order P root n !! 4%nat
     ∧ template_order P root n !! 11%nat = template_order P root n !! 5%nat)
  ∧ ∃ root k,
      let files := template_order P root (normalize_name name) in
      attempts (loady P U W (VString name) (VString path) c).2 = take k files
      ∧ (∀ i f, (S i < k)%nat → files !! i = Some f →
           reports_not_found W f = true)
      ∧ (∀ f, (0 < k)%nat → files !! (k - 1)%nat = Some f →
           reports_not_found W f = true → k = 18%nat)
      ∧ ((0 < k)%nat →
           ∃ dir tg,
             ensurePath U path = Ok dir
             ∧ truthy (default VUndefined
                         (c !! cache_key (normalize_name name) dir)) = false
             ∧ getRoot W dir c = (Ok root, c, tg))
      ∧ (∀ dir root' tg,
           ensurePath U path = Ok dir →
           truthy (default VUndefined
                     (c !! cache_key (normalize_name name) dir)) = false →
           getRoot W dir c = (Ok root', c, tg) →
           root = root'
           ∧ (0 < k)%nat
           ∧ k = Nat.min 18 (S (not_found_prefix W files))).
Proof.
  split; [intros root n; repeat split|].
  assert (∀ t,
            attempts t = [] →
            (∀ dir root' tg,
               ensurePath U path = Ok dir →
               truthy (default VUndefined
                         (c !! cache_key (normalize_name name) dir)) = false →
               getRoot W dir c = (Ok root', c, tg) → False) →
            ∃ root k,
            let files := template_order P root (normalize_name name) in
            attempts t = take k files
            ∧ (∀ i f, (S i < k)%nat → files !! i = Some f →
                 reports_not_found W f = true)
            ∧ (∀ f, (0 < k)%nat → files !! (k - 1)%nat = Some f →
                 reports_not_found W f = true → k = 18%nat)
            ∧ ((0 < k)%nat →
                 ∃ dir tg,
                   ensurePath U path = Ok dir
                   ∧ truthy (default VUndefined
                               (c !! cache_key (normalize_name name) dir)) = false
                   ∧ getRoot W dir c = (Ok root, c, tg))
            ∧ (∀ dir root' tg,
                 ensurePath U path = Ok dir →
                 truthy (default VUndefined
                           (c !! cache_key (normalize_name name) dir)) = false →
                 getRoot W dir c = (Ok root', c, tg) →
                 root = root'
                 ∧ (0 < k)%nat
                 ∧ k = Nat.min 18 (S (not_found_prefix W files))))
    as Hquiet.
  { intros t Ht Hnot. exists "", 0%nat. cbn zeta.
    split; [exact Ht|]. split; [intros; lia|]. split; [intros; lia|].
    split; [intros; lia|].
    intros dir root' tg H1 H2 H3. destruct (Hnot dir root' tg H1 H2 H3). }
  rewrite loady_run.
  destruct (ensurePath U path) as [dir|e|] eqn:Hdir.
  2:{ apply Hquiet; [reflexivity|]. intros ? ? ? [=]. }
  2:{ apply Hquiet; [reflexivity|]. intros ? ? ? [=]. }
  cbn zeta.
  destruct (truthy (default VUndefined (c !! cache_key (normalize_name name) dir)))
    eqn:Hmiss.
  { apply Hquiet; [reflexivity|]. intros ? ? ? [= <-] Hm _. congruence. }
  destruct (locate_and_load_run P W (cache_key (normalize_name name) dir)
              (normalize_name name) dir c) as (r & tg & Hroot & Htg & ->).
  destruct r as [root|e|].
  2:{ apply Hquiet; [exact Htg|]. intros ? ? ? [= <-] _ Hr. congruence. }
  2:{ apply Hquiet; [exact Htg|]. intros ? ? ? [= <-] _ Hr. congruence. }
  rewrite (search_run W _ _ _ _ _ _
             (candidates_make_options P root (normalize_name name))).
  exists root. cbn [app].
  set (files := template_order P root (normalize_name name)).
  pose proof (not_found_prefix_le W files) as Hle.
  change (length files) with 18%nat in Hle.
  assert (∀ dir0 root' tg',
            Ok dir = Ok dir0 →
            truthy (default VUndefined
                      (c !! cache_key (normalize_name name) dir0)) = false →
            getRoot W dir0 c = (Ok root', c, tg') → root = root') as Hsame.
  { intros ? ? ? [= <-] _ Hr. congruence. }
  destruct (files !! not_found_prefix W files) as [f|] eqn:Hstop.
  - pose proof (lookup_lt_Some _ _ _ Hstop) as Hlt.
    change (length files) with 18%nat in Hlt.
    exists (S (not_found_prefix W files)). cbn zeta.
    split; [|split; [|split; [|split]]].
    + cbn [snd]. rewrite attempts_app, Htg, attempts_loads. reflexivity.
    + intros i f' Hi Hf'. apply (not_found_prefix_before W files i); [lia|exact Hf'].
    + intros f' _ Hf' Hnf. cbn [Nat.sub] in Hf'. rewrite Nat.sub_0_r in Hf'.
      rewrite (not_found_prefix_stop W files f') in Hnf; [discriminate|exact Hf'].
    + intros _. eauto.
    + intros dir0 root' tg' H1 H2 H3.
      split; [exact (Hsame _ _ _ H1 H2 H3)|]. split; lia.
  - apply lookup_ge_None in Hstop. change (length files) with 18%nat in Hstop.
    exists 18%nat. cbn zeta. split; [|split; [|split; [|split]]].
    + cbn [snd]. rewrite attempts_app, Htg, attempts_loads. reflexivity.
    + intros i f' Hi Hf'. apply (not_found_prefix_before W files i); [lia|exact Hf'].
    + reflexivity.
    + intros _. eauto.
    + intros dir0 root' tg' H1 H2 H3.
      split; [exact (Hsame _ _ _ H1 H2 H3)|]. split; lia.
Qed.

(** C3.  When the search is reached (string arguments, an origin that
    [ensurePath] accepts, no cached binding, a root found) and every one
    of the 18 candidates reports a classified not-found failure, the call
    throws the error with code [ERR_BINDINGS_NOT_FOUND] whose [tries] are
    the 18 candidates in template order, each handed to the loader once in
    that order; the cache is as before, and the paths are absolute when the
    working directory is. *)
Theorem C3_exhaustion `{!PathLaws PM} W name path c dir root tg :
  ensurePath U path = Ok dir →
  truthy (default VUndefined (c !! cache_key (normalize_name name) dir)) = false →
  getRoot W dir c = (Ok root, c, tg) →
  Forall (λ f, reports_not_found W f = true)
    (template_order P root (normalize_name name)) →
  let tries := template_order P root (normalize_name name) in
  loady P U W (VString name) (VString path) c
  = (Throw (err_not_found tries), c, tg ++ map EvLoad tries)
  ∧ err_code (err_not_found tries) = Some "ERR_BINDINGS_NOT_FOUND"
  ∧ err_tries (err_not_found tries) = Some tries
  ∧ length tries = 18%nat
  ∧ (isAbsolute (cwd W) = true → Forall (λ f, isAbsolute f = true) tries).
Proof.
  intros Hdir Hmiss Hroot Hall tries.
  split; [|split; [reflexivity|split; [reflexivity|split; [reflexivity|]]]].
  - rewrite loady_run, Hdir. cbn zeta. rewrite Hmiss.
    unfold locate_and_load, bind. rewrite Hroot.
    rewrite (search_run W _ _ _ _ _ _
               (candidates_make_options P root (normalize_name name))).
    fold tries. rewrite (not_found_prefix_all W tries Hall).
    rewrite (lookup_ge_None_2 tries (length tries)); [|lia].
    reflexivity.
  - intros Hcwd.
    pose proof (getRoot_absolute W dir c root tg Hroot Hcwd) as Habs.
    unfold tries, template_order.
    repeat (apply Forall_cons; split; [apply join_absolute, Habs|]).
    apply Forall_nil. exact I.
Qed.

(** C4.  A call that throws, whatever the error, leaves the cache as it
    was; and a later call with the same arguments, in whatever world it
    runs, is not answered from the cache: it returns what it would return
    with an empty cache and makes the same filesystem and loader calls. *)
Theorem C4_failure_leaves_cache W name path c e c' t :
  loady P U W name path c = (Throw e, c', t) →
  c' = c
  ∧ ∀ W',
      (loady P U W' name path c').1.1 = (loady P U W' name path ∅).1.1
      ∧ (loady P U W' name path c').2 = (loady P U W' name path ∅).2.
Proof.
  intros Hrun.
  destruct name as [| | | |name| | |];
    try (injection Hrun as _ <- _; split; [reflexivity|intros W'; split; reflexivity]).
  destruct path as [| | | |path| | |];
    try (injection Hrun as _ <- _; split; [reflexivity|intros W'; split; reflexivity]).
  rewrite loady_run in Hrun.
  assert (∀ W' c0, loady P U W' (VString name) (VString path) c0
                   = match ensurePath U path with
                     | Ok dir =>
                         let key := cache_key (normalize_name name) dir in
                         let hit := default VUndefined (c0 !! key) in
                         if truthy hit then (Ok hit, c0, [])
                         else locate_and_load P W' key (normalize_name name) dir c0
                     | Throw e => (Throw e, c0, [])
                     | Hang => (Hang, c0, [])
                     end) as Hagain by (intros; apply loady_run).
  destruct (ensurePath U path) as [dir|e0|];
    try (injection Hrun as _ <- _; split; [reflexivity|];
         intros W'; rewrite !Hagain; split; reflexivity);
    try discriminate Hrun.
  cbn zeta in Hrun, Hagain.
  destruct (truthy (default VUndefined (c !! _))) eqn:Hmiss; [discriminate Hrun|].
  destruct (locate_and_load_uniform P W (cache_key (normalize_name name) dir)
              (normalize_name name) dir) as (r & t0 & Huni).
  rewrite Huni in Hrun. injection Hrun as -> <- _.
  split; [reflexivity|]. intros W'. rewrite !Hagain, Hmiss.
  rewrite lookup_empty. cbn [from_option id truthy].
  destruct (locate_and_load_uniform P W' (cache_key (normalize_name name) dir)
              (normalize_name name) dir) as (r' & t' & Huni').
  rewrite !Huni'. split; reflexivity.
Qed.

(** C5 (as amended).  After a call has returned a truthy binding (every
    object is one), a second call with the same arguments returns that same
    binding, whatever the world has become, leaves the cache as it is and
    calls neither the filesystem nor the loader. *)
Theorem C5_cached_binding_is_returned W W' name path c v c' t :
  loady P U W name path c = (Ok v, c', t) →
  truthy v = true →
  loady P U W' name path c' = (Ok v, c', []).
Proof.
  intros Hrun Hv.
  destruct name as [| | | |name| | |]; try discriminate Hrun.
  destruct path as [| | | |path| | |]; try discriminate Hrun.
  destruct (ensurePath U path) as [dir|e|] eqn:Hdir.
  - exact (cached_after_success P U W W' name path path dir c v c' t
             Hrun Hv Hdir Hdir).
  - rewrite loady_run, Hdir in Hrun. discriminate Hrun.
  - rewrite loady_run, Hdir in Hrun. discriminate Hrun.
Qed.

(** C6.  When some directory of the chain that starts at the resolved
    origin and climbs by [dirname] holds a marker ([package.json] or
    [node_modules]), [getRoot] returns the first such directory of the
    chain, which is the start itself when the start holds one. *)
Theorem C6_nearest_marked_ancestor `{!PathLaws PM} W path c :
  (∃ k, marker W (ancestor k (resolve (cwd W) path)) = true) →
  ∃ m t,
    getRoot W path c = (Ok (ancestor m (resolve (cwd W) path)), c, t)
    ∧ marker W (ancestor m (resolve (cwd W) path)) = true
    ∧ ∀ j, (j < m)%nat → marker W (ancestor j (resolve (cwd W) path)) = false.
Proof.
  intros [k Hk]. unfold getRoot.
  set (start := resolve (cwd W) path) in *.
  destruct (getRoot_loop_total W path (S (depth start)) start c)
    as (m & t & Hbefore & Hstop); [lia|].
  exists m, t.
  destruct Hstop as [(Hfound & Hrun)|(Hnone & Hfix & _)].
  - split; [exact Hrun|]. split; [exact Hfound|].
    intros j Hj. apply Hbefore, Hj.
  - exfalso. destruct (Nat.lt_ge_cases k m) as [Hlt|Hge].
    + destruct (Hbefore k Hlt) as [Hno _]. congruence.
    + replace k with (m + (k - m))%nat in Hk by lia.
      rewrite ancestor_add, (ancestor_fixed _ _ Hfix) in Hk. congruence.
Qed.

(** C7 (as amended).  When no directory of the chain holds a marker and
    the call is not answered from the cache, the call throws the error with
    code [ERR_BINDINGS_NO_ROOT] whose [path] is the origin after
    [ensurePath]: the origin as supplied when it is a plain path, the
    directory of the converted file when it is a [file:] URI.  The loader is
    never called and the cache is as before. *)
Theorem C7_no_root_reports_converted_origin `{!PathLaws PM} W name path c dir :
  ensurePath U path = Ok dir →
  truthy (default VUndefined (c !! cache_key (normalize_name name) dir)) = false →
  (∀ k, marker W (ancestor k (resolve (cwd W) dir)) = false) →
  (∃ t, loady P U W (VString name) (VString path) c
        = (Throw (err_no_root dir), c, t)
        ∧ attempts t = [])
  ∧ err_code (err_no_root dir) = Some "ERR_BINDINGS_NO_ROOT"
  ∧ err_path (err_no_root dir) = Some dir
  ∧ (is_file_uri path = false → dir = path)
  ∧ (is_file_uri path = true →
       ∃ f file, fileURLToPath U = Some f ∧ f path = inr file
                 ∧ dir = dirname file).
Proof.
  intros Hdir Hmiss Hnone.
  split; [|split; [reflexivity|split; [reflexivity|split]]].
  - rewrite loady_run, Hdir. cbn zeta. rewrite Hmiss.
    unfold locate_and_load, bind, getRoot.
    set (start := resolve (cwd W) dir) in *.
    destruct (getRoot_loop_uniform W dir (S (depth start)) start)
      as (r & t & Ht & Huni).
    destruct (getRoot_loop_total W dir (S (depth start)) start c)
      as (m & t' & _ & Hstop); [lia|].
    destruct Hstop as [(Hfound & _)|(_ & _ & Hrun)].
    + rewrite Hnone in Hfound. discriminate Hfound.
    + rewrite Hrun. exists t'. split; [reflexivity|].
      rewrite Huni in Hrun. injection Hrun as _ ->. exact Ht.
  - intros Hplain. unfold ensurePath in Hdir. rewrite Hplain in Hdir.
    injection Hdir as <-. reflexivity.
  - intros Huri. unfold ensurePath in Hdir. rewrite Huri in Hdir.
    destruct (fileURLToPath U) as [f|]; [|discriminate Hdir].
    destruct (f path) as [e|file] eqn:Hfile; [discriminate Hdir|].
    injection Hdir as <-. exists f, file. repeat split. exact Hfile.
Qed.

(** C8 (as amended).  Two pairs of a name and an origin path that give the
    same cache key are equal, provided neither name contains the character
    U+0000, or neither path does. *)
Theorem C8_cache_key_injective n1 p1 n2 p2 :
  cache_key n1 p1 = cache_key n2 p2 →
  (has_nul n1 = false ∧ has_nul n2 = false)
  ∨ (has_nul p1 = false ∧ has_nul p2 = false) →
  n1 = n2 ∧ p1 = p2.
Proof.
  revert n2.
  induction n1 as [|a n1 IH]; intros [|b n2];
    rewrite ?cache_key_nil, ?cache_key_cons.
  - intros [= ->] _. split; reflexivity.
  - intros [= <- ->] [[_ Hn2]|[Hp1 _]].
    + simpl in Hn2. discriminate Hn2.
    + rewrite has_nul_cache_key in Hp1. discriminate Hp1.
  - intros [= -> <-] [[Hn1 _]|[_ Hp2]].
    + simpl in Hn1. discriminate Hn1.
    + rewrite has_nul_cache_key in Hp2. discriminate Hp2.
  - intros [= -> Hrest] Hnul.
    destruct (IH n2 Hrest) as [-> ->]; [|split; reflexivity].
    destruct Hnul as [[Hn1 Hn2]|Hp]; [left|right; exact Hp].
    simpl in Hn1, Hn2. apply orb_false_iff in Hn1, Hn2. tauto.
Qed.


(** C10 (as amended).  The cache key is built from the origin after
    [ensurePath]: a [file:] URI and the plain path of the directory of the
    file it names give the same key for every name, so a call that returned
    a truthy binding under one of the two origins is answered from the
    cache under the other. *)
Theorem C10_uri_and_directory_share_key f url file :
  is_file_uri url = true →
  fileURLToPath U = Some f →
  f url = inr file →
  is_file_uri (dirname file) = false →
  (∀ name,
     key_of_call U name url = Ok (cache_key (normalize_name name) (dirname file))
     ∧ key_of_call U name (dirname file) = key_of_call U name url)
  ∧ ∀ name W W' c v c' t,
      truthy v = true →
      (loady P U W (VString name) (VString url) c = (Ok v, c', t) →
       loady P U W' (VString name) (VString (dirname file)) c' = (Ok v, c', []))
      ∧ (loady P U W (VString name) (VString (dirname file)) c = (Ok v, c', t) →
         loady P U W' (VString name) (VString url) c' = (Ok v, c', [])).
Proof.
  intros Huri Hf Hfile Hplain.
  assert (ensurePath U url = Ok (dirname file)) as Hurl.
  { unfold ensurePath. rewrite Huri, Hf, Hfile. reflexivity. }
  assert (ensurePath U (dirname file) = Ok (dirname file)) as Hdir.
  { unfold ensurePath. rewrite Hplain. reflexivity. }
  split.
  - intros name. unfold key_of_call. rewrite Hurl, Hdir. split; reflexivity.
  - intros name W W' c v c' t Hv. split; intros Hrun.
    + exact (cached_after_success P U W W' name url (dirname file) (dirname file)
               c v c' t Hrun Hv Hurl Hdir).
    + exact (cached_after_success P U W W' name (dirname file) url (dirname file)
               c v c' t Hrun Hv Hdir Hurl).
Qed.

End Claims.

(** * Scenarios on the POSIX host *)

(** The spec's scenario of a success on the first candidate. *)
Example success_on_first_candidate :
  run world_built (VString "foo") (VString "/proj") ∅
  = (Ok (VObject 1), {[ foo_key := VObject 1 ]},
     [EvExists "/proj/package.json"; EvLoad "/proj/build/foo.node"]).
Proof. vm_compute. reflexivity. Qed.

(** The spec's scenario of a URI origin. *)
Example uri_origin_starts_at_directory :
  ensurePath Host.url "file:///proj/index.js" = Ok "/proj".
Proof. vm_compute. reflexivity. Qed.

(** On a host without [url.fileURLToPath] a URI origin is refused, and
    the error carries the URI. *)
Example uri_origin_unsupported :
  @loady posix_path Host.process Host.old_url world_built
    (VString "foo") (VString "file:///proj/index.js") ∅
  = (Throw (err_file_uri "file:///proj/index.js"), ∅, [])
  ∧ err_code (err_file_uri "file:///proj/index.js") = Some "ERR_BINDINGS_FILE_URI"
  ∧ err_url (err_file_uri "file:///proj/index.js") = Some "file:///proj/index.js".
Proof. vm_compute. repeat split. Qed.

(** The conversions of the host of the scenarios: the URL parser puts the
    path below the root, drops [localhost] and resolves [..]; another host
    is refused. *)
Example conversions_of_file_urls :
  Host.fileURLToPath "file:///proj/index.js" = inr "/proj/index.js"
  ∧ Host.fileURLToPath "file:proj" = inr "/proj"
  ∧ Host.fileURLToPath "file://localhost/proj/lib/../index.js"
    = inr "/proj/index.js"
  ∧ Host.fileURLToPath "file://example.com/proj/index.js"
    = inl Host.err_invalid_file_url_host.
Proof. vm_compute. repeat split. Qed.

(** An argument that is not a string is refused before anything else. *)
Example invalid_arguments :
  run world_built (VNumber 1) (VString "/proj") ∅ = (Throw err_name, ∅, [])
  ∧ run world_built (VString "foo") VUndefined ∅ = (Throw err_path_arg, ∅, []).
Proof. split; reflexivity. Qed.

(** The chain of C6: the root of [/a/b/c] is [/a]. *)
Example root_of_chain :
  getRoot world_chain "/a/b/c" ∅
  = (Ok "/a", ∅,
     [EvExists "/a/b/c/package.json"; EvExists "/a/b/c/node_modules";
      EvExists "/a/b/package.json"; EvExists "/a/b/node_modules";
      EvExists "/a/package.json"]).
Proof. vm_compute. reflexivity. Qed.

(** C2.  The code departs from C2 on a load that throws [null]: the
    failure matches none of the three not-found cases, yet the call does
    not propagate it unmodified.  Reading [e.code] in the [catch] clause
    raises a [TypeError], and the call throws that error in place of
    [null].  The rest of C2 holds on this input: the load is the last
    thing the call does, no later candidate is attempted. *)
Theorem C2_thrown_null_is_replaced :
  loader world_throws_null "/proj/build/foo.node" = Throw (ThrownValue VNull)
  ∧ reports_not_found world_throws_null "/proj/build/foo.node" = false
  ∧ run world_throws_null (VString "foo") (VString "/proj") ∅
    = (Throw (err_read_code "null"), ∅,
       [EvExists "/proj/package.json"; EvLoad "/proj/build/foo.node"])
  ∧ ThrownError (err_read_code "null") ≠ ThrownValue VNull
  ∧ err_class (err_read_code "null") = ClsTypeError
  ∧ err_message (err_read_code "null")
    = "Cannot read properties of null (reading 'code')".
Proof.
  split; [vm_compute; reflexivity|].
  split; [vm_compute; reflexivity|].
  split; [vm_compute; reflexivity|].
  split; [discriminate|].
  split; reflexivity.
Qed.

Lemma C3_witness :
  let tries := template_order Host.process "/proj" "foo.node" in
  run world_empty_project (VString "foo") (VString "/proj") ∅
  = (Throw (err_not_found tries), ∅,
     [EvExists "/proj/package.json"] ++ map EvLoad tries)
  ∧ err_code (err_not_found tries) = Some "ERR_BINDINGS_NOT_FOUND"
  ∧ err_tries (err_not_found tries) = Some tries
  ∧ length tries = 18%nat
  ∧ (isAbsolute (cwd world_empty_project) = true →
     Forall (λ f, isAbsolute f = true) tries).
Proof.
  apply (C3_exhaustion (PM := posix_path) Host.process Host.url
           world_empty_project "foo" "/proj" ∅ "/proj" "/proj"
           [EvExists "/proj/package.json"]).
  - vm_compute. reflexivity.
  - vm_compute. reflexivity.
  - vm_compute. reflexivity.
  - repeat (apply Forall_cons; split; [vm_compute; reflexivity|]).
    apply Forall_nil. exact I.
Defined.

Lemma C4_witness :
  other_cache = other_cache
  ∧ ∀ W',
      (run W' (VString "foo") (VString "/proj") other_cache).1.1
      = (run W' (VString "foo") (VString "/proj") ∅).1.1
      ∧ (run W' (VString "foo") (VString "/proj") other_cache).2
        = (run W' (VString "foo") (VString "/proj") ∅).2.
Proof.
  eapply (C4_failure_leaves_cache (PM := posix_path) Host.process Host.url
            world_broken_release (VString "foo") (VString "/proj") other_cache
            err_bad_binary other_cache).
  vm_compute. reflexivity.
Defined.

Lemma C5_witness :
  run world_bare (VString "foo") (VString "/proj") {[ foo_key := VObject 1 ]}
  = (Ok (VObject 1), {[ foo_key := VObject 1 ]}, []).
Proof.
  eapply (C5_cached_binding_is_returned (PM := posix_path) Host.process
            Host.url world_built world_bare (VString "foo") (VString "/proj") ∅).
  - vm_compute. reflexivity.
  - reflexivity.
Defined.

(** C5 as stated fails for a binding that is not truthy: the module that
    exports 0 is loaded and returned, and the second call with the same
    arguments searches again; once the files are gone it even fails. *)
Lemma C5_counterexample :
  (run world_exports_zero (VString "foo") (VString "/proj") ∅).1.1
  = Ok (VNumber 0)
  ∧ (run world_exports_zero (VString "foo") (VString "/proj")
       (run world_exports_zero (VString "foo") (VString "/proj") ∅).1.2).2
    = [EvExists "/proj/package.json"; EvLoad "/proj/build/foo.node"]
  ∧ (run world_bare (VString "foo") (VString "/proj")
       (run world_exports_zero (VString "foo") (VString "/proj") ∅).1.2).1.1
    = Throw (err_no_root "/proj").
Proof. vm_compute. repeat split. Qed.

Lemma C6_witness :
  ∃ m t,
    getRoot world_chain "/a/b/c" ∅
    = (Ok (ancestor m (resolve (cwd world_chain) "/a/b/c")), ∅, t)
    ∧ marker world_chain (ancestor m (resolve (cwd world_chain) "/a/b/c")) = true
    ∧ ∀ j, (j < m)%nat →
        marker world_chain (ancestor j (resolve (cwd world_chain) "/a/b/c")) = false.
Proof.
  apply (C6_nearest_marked_ancestor (PM := posix_path) world_chain "/a/b/c" ∅).
  exists 2%nat. vm_compute. reflexivity.
Defined.

Lemma C7_witness :
  (∃ t, run world_bare (VString "foo") (VString "file:///proj/index.js") ∅
        = (Throw (err_no_root "/proj"), ∅, t)
        ∧ attempts t = [])
  ∧ err_code (err_no_root "/proj") = Some "ERR_BINDINGS_NO_ROOT"
  ∧ err_path (err_no_root "/proj") = Some "/proj"
  ∧ (is_file_uri "file:///proj/index.js" = false
     → "/proj" = "file:///proj/index.js")
  ∧ (is_file_uri "file:///proj/index.js" = true →
       ∃ f file, fileURLToPath Host.url = Some f
                 ∧ f "file:///proj/index.js" = inr file
                 ∧ "/proj" = dirname file).
Proof.
  apply (C7_no_root_reports_converted_origin (PM := posix_path) Host.process
           Host.url world_bare "foo" "file:///proj/index.js" ∅ "/proj").
  - vm_compute. reflexivity.
  - vm_compute. reflexivity.
  - intros k. reflexivity.
Defined.

(** C7 as stated fails for a [file:] URI: no directory holds a marker, and
    the error carries the directory computed from the URI, not the URI that
    the caller supplied.  It also fails when the cache holds a binding for
    the key: the call returns it and never looks for a root. *)
Lemma C7_counterexample :
  (∀ k, marker world_bare (ancestor k (resolve (cwd world_bare) "/proj")) = false)
  ∧ (∃ e : error,
       (run world_bare (VString "foo") (VString "file:///proj/index.js") ∅).1.1
       = Throw e
       ∧ err_code e = Some "ERR_BINDINGS_NO_ROOT"
       ∧ err_path e = Some "/proj"
       ∧ err_path e ≠ Some "file:///proj/index.js")
  ∧ (run world_bare (VString "foo") (VString "/proj")
       {[ foo_key := VObject 1 ]}).1.1
    = Ok (VObject 1).
Proof.
  split; [intros k; reflexivity|]. split.
  - exists (err_no_root "/proj"). vm_compute. repeat split. discriminate.
  - vm_compute. reflexivity.
Qed.

Lemma C8_witness : "foo.node" = "foo.node" ∧ "/proj" = "/proj".
Proof.
  apply (C8_cache_key_injective "foo.node" "/proj" "foo.node" "/proj").
  - reflexivity.
  - left. split; reflexivity.
Defined.

(** C8 as stated fails: U+0000 may occur in a name, and then two different
    pairs give one key.  Both names below are normalized ones. *)
Lemma C8_counterexample :
  let n1 := "a.node" in
  let p1 := "b.node" +:+ nul +:+ "c" in
  let n2 := "a.node" +:+ nul +:+ "b.node" in
  let p2 := "c" in
  cache_key n1 p1 = cache_key n2 p2
  ∧ (n1, p1) ≠ (n2, p2)
  ∧ normalize_name n1 = n1
  ∧ normalize_name n2 = n2.
Proof. vm_compute. repeat split. discriminate. Qed.


Lemma C10_witness :
  (∀ name,
     key_of_call Host.url name "file:///proj/index.js"
     = Ok (cache_key (normalize_name name) "/proj")
     ∧ key_of_call Host.url name "/proj"
       = key_of_call Host.url name "file:///proj/index.js")
  ∧ ∀ name W W' c v c' t,
      truthy v = true →
      (run W (VString name) (VString "file:///proj/index.js") c = (Ok v, c', t) →
       run W' (VString name) (VString "/proj") c' = (Ok v, c', []))
      ∧ (run W (VString name) (VString "/proj") c = (Ok v, c', t) →
         run W' (VString name) (VString "file:///proj/index.js") c' = (Ok v, c', [])).
Proof.
  apply (C10_uri_and_directory_share_key (PM := posix_path) Host.process
           Host.url Host.fileURLToPath "file:///proj/index.js" "/proj/index.js").
  - reflexivity.
  - reflexivity.
  - vm_compute. reflexivity.
  - reflexivity.
Defined.

(** C10 as stated fails for a binding that is not truthy: the call under
    the URI returns the exported 0, and the call under the directory is not
    answered from the cache: it searches again, and fails once the files
    are gone. *)
Lemma C10_counterexample :
  (run world_exports_zero (VString "foo") (VString "file:///proj/index.js") ∅).1.1
  = Ok (VNumber 0)
  ∧ (run world_exports_zero (VString "foo") (VString "/proj")
       (run world_exports_zero (VString "foo")
          (VString "file:///proj/index.js") ∅).1.2).2
    ≠ []
  ∧ (run world_bare (VString "foo") (VString "/proj")
       (run world_exports_zero (VString "foo")
          (VString "file:///proj/index.js") ∅).1.2).1.1
    = Throw (err_no_root "/proj").
Proof. vm_compute. repeat split. discriminate. Qed.

(** * Further properties *)

(** ** Arguments and origins *)

Section OriginFacts.
Context `{PM : PathModule} (P : Process) (U : UrlModule).

(** X1.  A call whose name is not a string throws the [TypeError] of the
    name, whatever the path is; a call whose name is a string and whose
    path is not throws the [TypeError] of the path.  Either way nothing
    else happens: the cache is as before and neither the filesystem nor the
    loader is called. *)
Theorem X1_invalid_arguments W name path c :
  (∀ s, name ≠ VString s) ∨ (∀ s, path ≠ VString s) →
  ∃ e : error,
       loady P U W name path c = (Throw e, c, [])
       ∧ err_class e = ClsTypeError
       ∧ ((∀ s, name ≠ VString s) → e = err_name)
       ∧ (∀ n, name = VString n → e = err_path_arg).
Proof.
  intros Hbad.
  assert (∀ n, name = VString n → (∀ s, name ≠ VString s) → False) as Hstr.
  { intros n -> Hn. exact (Hn n eq_refl). }
  destruct name as [| | | |n| | |];
    try (exists err_name;
         split; [reflexivity|]; split; [reflexivity|];
         split; [reflexivity|discriminate]).
  destruct path as [| | | |p| | |];
    try (exists err_path_arg;
         split; [reflexivity|]; split; [reflexivity|];
         split; [intros Hn; destruct (Hstr n eq_refl Hn)|reflexivity]).
  exfalso. destruct Hbad as [Hn|Hp]; [exact (Hn n eq_refl)|exact (Hp p eq_refl)].
Qed.

(** X2.  On a host whose [url] module has no [fileURLToPath], a call whose
    origin begins with [file:] throws the error with code
    [ERR_BINDINGS_FILE_URI] whose [url] is the origin as supplied.  The
    cache is not consulted (a binding stored earlier is not returned) and
    nothing is looked up or loaded. *)
Theorem X2_file_uri_unsupported W name path c :
  fileURLToPath U = None →
  is_file_uri path = true →
  loady P U W (VString name) (VString path) c
  = (Throw (err_file_uri path), c, [])
  ∧ err_code (err_file_uri path) = Some "ERR_BINDINGS_FILE_URI"
  ∧ err_url (err_file_uri path) = Some path.
Proof.
  intros Hnone Huri. split; [|split; reflexivity].
  rewrite loady_run. unfold ensurePath. rewrite Huri, Hnone. reflexivity.
Qed.

(** X3.  When [fileURLToPath] throws on a [file:] origin, the call throws
    that very error: it is not replaced by [ERR_BINDINGS_FILE_URI], the
    cache is as before and nothing is looked up or loaded. *)
Theorem X3_conversion_error_propagates W name path c f e :
  fileURLToPath U = Some f →
  is_file_uri path = true →
  f path = inl e →
  loady P U W (VString name) (VString path) c = (Throw e, c, []).
Proof.
  intros Hf Huri He.
  rewrite loady_run. unfold ensurePath. rewrite Huri, Hf, He. reflexivity.
Qed.

(** X4.  An origin that does not begin with [file:] is used as it is, and
    the [url] module plays no part: the call is the same computation on
    every host, with or without [fileURLToPath]. *)
Theorem X4_plain_origin_ignores_url U' W name path :
  is_file_uri path = false →
  ensurePath U path = Ok path
  ∧ loady P U W name (VString path) = loady P U' W name (VString path).
Proof.
  intros Hplain.
  assert (∀ V, ensurePath V path = Ok path) as Hsame.
  { intros V. unfold ensurePath. rewrite Hplain. reflexivity. }
  split; [apply Hsame|].
  destruct name as [| | | |n| | |]; try reflexivity.
  unfold loady. rewrite (Hsame U), (Hsame U'). reflexivity.
Qed.

End OriginFacts.

(** ** Outcomes of a call *)

Section OutcomeFacts.
Context `{PM : PathModule} (P : Process) (U : UrlModule).

Lemma not_found_prefix_eq W files i f :
  files !! i = Some f →
  reports_not_found W f = false →
  (∀ j f', (j < i)%nat → files !! j = Some f' → reports_not_found W f' = true) →
  not_found_prefix W files = i.
Proof.
  revert i. induction files as [|f0 files IH]; intros i Hi Hf Hbefore;
    [discriminate Hi|].
  destruct i as [|i]; cbn in Hi |- *.
  - injection Hi as ->. rewrite Hf. reflexivity.
  - rewrite (Hbefore 0%nat f0); [|lia|reflexivity].
    f_equal. apply IH; [exact Hi|exact Hf|].
    intros j f' Hj Hf'. apply (Hbefore (S j) f'); [lia|exact Hf'].
Qed.



(** What a call does to the cache: nothing, or one write at its own key,
    which held no truthy value, of the binding it returns. *)
Lemma loady_cache_step W name path c r c' t :
  loady P U W name path c = (r, c', t) →
  c' = c
  ∨ ∃ n p dir v,
      name = VString n ∧ path = VString p ∧ ensurePath U p = Ok dir
      ∧ truthy (default VUndefined (c !! cache_key (normalize_name n) dir)) = false
      ∧ r = Ok v
      ∧ c' = <[cache_key (normalize_name n) dir := v]> c.
Proof.
  intros Hrun.
  destruct name as [| | | |n| | |]; try (injection Hrun as _ <- _; left; reflexivity).
  destruct path as [| | | |p| | |]; try (injection Hrun as _ <- _; left; reflexivity).
  rewrite loady_run in Hrun.
  destruct (ensurePath U p) as [dir|e|] eqn:Hdir;
    try (injection Hrun as _ <- _; left; reflexivity).
  cbn zeta in Hrun.
  destruct (truthy (default VUndefined (c !! _))) eqn:Hmiss;
    [injection Hrun as _ <- _; left; reflexivity|].
  destruct (locate_and_load_uniform P W (cache_key (normalize_name n) dir)
              (normalize_name n) dir) as (r0 & t0 & Huni).
  rewrite Huni in Hrun. injection Hrun as -> <- _.
  destruct r as [v| |]; [|left; reflexivity..].
  right. exists n, p, dir, v. repeat split; assumption.
Qed.

(** X5.  When the search is reached and the candidate at some position
    loads while every candidate before it reports a classified not-found
    failure, the call returns the binding of that candidate, writes it in
    the cache under the key of the call, and has handed to the loader the
    candidates up to that one and none after it. *)
Theorem X5_first_loadable_candidate_wins W name path c dir root tg i file v :
  ensurePath U path = Ok dir →
  truthy (default VUndefined (c !! cache_key (normalize_name name) dir)) = false →
  getRoot W dir c = (Ok root, c, tg) →
  template_order P root (normalize_name name) !! i = Some file →
  loader W file = Ok v →
  (∀ j f, (j < i)%nat →
     template_order P root (normalize_name name) !! j = Some f →
     reports_not_found W f = true) →
  loady P U W (VString name) (VString path) c
  = (Ok v, <[cache_key (normalize_name name) dir := v]> c,
     tg ++ map EvLoad (take (S i) (template_order P root (normalize_name name)))).
Proof.
  intros Hdir Hmiss Hroot Hfile Hload Hbefore.
  rewrite loady_run, Hdir. cbn zeta. rewrite Hmiss.
  unfold locate_and_load, bind. rewrite Hroot.
  rewrite (search_run W _ _ _ _ _ _
             (candidates_make_options P root (normalize_name name))).
  rewrite (not_found_prefix_eq W _ i file Hfile); [|  |exact Hbefore].
  - rewrite Hfile. unfold load_outcome. rewrite Hload. reflexivity.
  - unfold reports_not_found. rewrite Hload. reflexivity.
Qed.

(** X6.  No call removes an entry of the cache or replaces a truthy one:
    every key bound before the call is bound after it, a truthy binding is
    kept as it is, and the cache after the call is the cache before it or
    that cache with one key set to the binding the call returns. *)
Theorem X6_cache_entries_survive W name path c r c' t :
  loady P U W name path c = (r, c', t) →
  (∀ k v, c !! k = Some v → truthy v = true → c' !! k = Some v)
  ∧ dom c ⊆ dom c'
  ∧ (c' = c ∨ ∃ k v, r = Ok v ∧ c' = <[k := v]> c).
Proof.
  intros Hrun.
  destruct (loady_cache_step W name path c r c' t Hrun)
    as [->|(n & p & dir & v & _ & _ & _ & Hmiss & -> & ->)].
  - split; [auto|]. split; [reflexivity|left; reflexivity].
  - split; [|split; [apply dom_insert_subseteq|right; eauto]].
    intros k v0 Hk Hv0.
    destruct (decide (cache_key (normalize_name n) dir = k)) as [<-|Hne].
    + rewrite Hk in Hmiss. cbn in Hmiss. congruence.
    + rewrite lookup_insert_ne; [exact Hk|exact Hne].
Qed.



End OutcomeFacts.

(** ** The walk of [getRoot] and the shape of a call *)

Section WalkFacts.
Context `{PM : PathModule} (P : Process) (U : UrlModule).

Lemma has_marker_events W root c :
  has_marker W root c = (Ok (marker W root), c, marker_events W root).
Proof.
  unfold has_marker, marker, marker_events, bind, existsSync.
  destruct (fs_exists W (join [root; "package.json"])); reflexivity.
Qed.

Lemma length_marker_events W root : (length (marker_events W root) <= 2)%nat.
Proof.
  unfold marker_events.
  destruct (fs_exists W (join [root; "package.json"])); simpl; lia.
Qed.

Lemma length_climb_events W n start :
  (length (climb_events W n start) <= 2 * n)%nat.
Proof.
  revert start. induction n as [|n IH]; intros start; cbn [climb_events];
    [simpl; lia|].
  rewrite length_app.
  pose proof (length_marker_events W start). pose proof (IH (dirname start)). lia.
Qed.

Lemma attempts_marker_events W root : attempts (marker_events W root) = [].
Proof.
  unfold marker_events.
  destruct (fs_exists W (join [root; "package.json"])); reflexivity.
Qed.

Lemma probes_app t1 t2 : probes (t1 ++ t2) = probes t1 ++ probes t2.
Proof.
  induction t1 as [|[p|file] t1 IH]; simpl; [reflexivity| |exact IH].
  f_equal. exact IH.
Qed.

Lemma probes_loads files : probes (map EvLoad files) = [].
Proof. induction files as [|f files IH]; simpl; [reflexivity|exact IH]. Qed.

(** A trace without loads is a list of probes. *)
Lemma quiet_is_probes t : attempts t = [] → t = map EvExists (probes t).
Proof.
  induction t as [|[p|file] t IH]; simpl; intros Ht;
    [reflexivity| |discriminate Ht].
  f_equal. exact (IH Ht).
Qed.

(** The loop with its calls: it tests the directories of the chain up to
    the one where it stops, each by [marker_events]. *)
Lemma getRoot_loop_trace `{!PathLaws PM} W path fuel root c :
  (depth root < fuel)%nat →
  ∃ m r,
    getRoot_loop W path fuel root c = (r, c, climb_events W (S m) root)
    ∧ (∀ j, (j < m)%nat →
         marker W (ancestor j root) = false
         ∧ dirname (ancestor j root) ≠ ancestor j root)
    ∧ ((marker W (ancestor m root) = true ∧ r = Ok (ancestor m root))
       ∨ (marker W (ancestor m root) = false
          ∧ dirname (ancestor m root) = ancestor m root
          ∧ r = Throw (err_no_root path))).
Proof.
  revert root. induction fuel as [|fuel IH]; intros root Hfuel; [lia|].
  cbn [getRoot_loop]. unfold bind. rewrite has_marker_events.
  destruct (marker W root) eqn:Hmark.
  - exists 0%nat, (Ok root). cbn [climb_events]. split; [reflexivity|].
    split; [intros j Hj; lia|]. left. split; [exact Hmark|reflexivity].
  - destruct (String.eqb_spec (dirname root) root) as [Hfix|Hstep].
    + exists 0%nat, (Throw (err_no_root path)). cbn [climb_events].
      split; [reflexivity|]. split; [intros j Hj; lia|].
      right. split; [exact Hmark|]. split; [exact Hfix|reflexivity].
    + pose proof (dirname_depth root Hstep) as Hdepth.
      destruct (IH (dirname root)) as (m & r & Hrun & Hbefore & Hstop); [lia|].
      exists (S m), r. rewrite Hrun. split; [reflexivity|]. split.
      * intros [|j] Hj; [split; [exact Hmark|exact Hstep]|].
        rewrite ancestor_succ. apply Hbefore. lia.
      * rewrite ancestor_succ. exact Hstop.
Qed.

(** X7.  [getRoot] always comes to an end, with one of two outcomes: it
    returns a directory of the chain that holds a marker, or it throws its
    error, and then no directory of the chain holds a marker.  It never
    changes the cache. *)
Theorem X7_getRoot_returns_or_throws `{!PathLaws PM} W path c :
  (∃ m t, getRoot W path c = (Ok (ancestor m (resolve (cwd W) path)), c, t)
          ∧ marker W (ancestor m (resolve (cwd W) path)) = true)
  ∨ (∃ t, getRoot W path c = (Throw (err_no_root path), c, t)
          ∧ ∀ k, marker W (ancestor k (resolve (cwd W) path)) = false).
Proof.
  unfold getRoot. set (start := resolve (cwd W) path).
  destruct (getRoot_loop_trace W path (S (depth start)) start c)
    as (m & r & Hrun & Hbefore & Hstop); [lia|].
  destruct Hstop as [(Hfound & ->)|(Hnone & Hfix & ->)].
  - left. eauto.
  - right. eexists. split; [exact Hrun|]. intros k.
    destruct (Nat.lt_ge_cases k m) as [Hlt|Hge].
    + apply Hbefore, Hlt.
    + replace k with (m + (k - m))%nat by lia.
      rewrite ancestor_add, (ancestor_fixed _ _ Hfix). exact Hnone.
Qed.

(** X8.  The filesystem calls of [getRoot] are those of its walk and no
    others: for each directory of the chain, from the resolved origin to
    the one where it stops, [package.json] in that directory and then, only
    if that is missing, [node_modules]; at most two calls per directory.
    The walk stops at the first directory that holds a marker, or at the
    fixed point of [dirname]; no directory before that one holds a marker
    or is its own parent. *)
Theorem X8_getRoot_probes `{!PathLaws PM} W path c :
  ∃ m,
    (getRoot W path c).2 = climb_events W (S m) (resolve (cwd W) path)
    ∧ (∀ j, (j < m)%nat →
         marker W (ancestor j (resolve (cwd W) path)) = false
         ∧ dirname (ancestor j (resolve (cwd W) path))
           ≠ ancestor j (resolve (cwd W) path))
    ∧ (marker W (ancestor m (resolve (cwd W) path)) = true
       ∨ dirname (ancestor m (resolve (cwd W) path))
         = ancestor m (resolve (cwd W) path))
    ∧ (length (getRoot W path c).2 <= 2 * S m)%nat.
Proof.
  unfold getRoot. set (start := resolve (cwd W) path).
  destruct (getRoot_loop_trace W path (S (depth start)) start c)
    as (m & r & Hrun & Hbefore & Hstop); [lia|].
  exists m. rewrite Hrun. cbn [snd].
  split; [reflexivity|]. split; [intros j Hj; apply Hbefore, Hj|].
  split; [|apply length_climb_events].
  destruct Hstop as [(Hfound & _)|(_ & Hfix & _)]; [left|right]; assumption.
Qed.

(** X9.  In every call all the filesystem calls come before all the
    loader calls: the root is looked for once, before the first file is
    loaded, and never again.  A call hands at most 18 files to the
    loader. *)
Theorem X9_probes_precede_loads W name path c :
  (loady P U W name path c).2
  = map EvExists (probes (loady P U W name path c).2)
    ++ map EvLoad (attempts (loady P U W name path c).2)
  ∧ (length (attempts (loady P U W name path c).2) <= 18)%nat.
Proof.
  assert (∀ tg files,
            attempts tg = [] → (length files <= 18)%nat →
            tg ++ map EvLoad files
            = map EvExists (probes (tg ++ map EvLoad files))
              ++ map EvLoad (attempts (tg ++ map EvLoad files))
            ∧ (length (attempts (tg ++ map EvLoad files)) <= 18)%nat)
    as Hshape.
  { intros tg files Htg Hlen.
    rewrite probes_app, attempts_app, probes_loads, attempts_loads, Htg.
    rewrite app_nil_r. cbn [app]. split; [|exact Hlen].
    f_equal. apply quiet_is_probes, Htg. }
  assert (∀ (r : result value) (c' : gmap string value) tg,
            attempts tg = [] →
            (r, c', tg).2
            = map EvExists (probes (r, c', tg).2)
              ++ map EvLoad (attempts (r, c', tg).2)
            ∧ (length (attempts (r, c', tg).2) <= 18)%nat) as Hquiet.
  { intros r c' tg Htg. cbn [snd]. rewrite Htg. cbn [map].
    rewrite app_nil_r. split; [apply quiet_is_probes, Htg|simpl; lia]. }
  destruct name as [| | | |n| | |]; try (apply (Hquiet _ _ []); reflexivity).
  destruct path as [| | | |p| | |]; try (apply (Hquiet _ _ []); reflexivity).
  rewrite loady_run.
  destruct (ensurePath U p) as [dir|e|]; try (apply (Hquiet _ _ []); reflexivity).
  cbn zeta. destruct (truthy _); [apply (Hquiet _ _ []); reflexivity|].
  destruct (locate_and_load_run P W (cache_key (normalize_name n) dir)
              (normalize_name n) dir c) as (r & tg & _ & Htg & ->).
  destruct r as [root|e|]; try (apply Hquiet; exact Htg).
  rewrite (search_run W _ _ _ _ _ _
             (candidates_make_options P root (normalize_name n))).
  set (files := template_order P root (normalize_name n)).
  destruct (files !! not_found_prefix W files) as [f|]; cbn [snd].
  - apply Hshape; [exact Htg|]. rewrite length_take.
    change (length files) with 18%nat. lia.
  - apply Hshape; [exact Htg|]. change (length files) with 18%nat. lia.
Qed.

End WalkFacts.

(** ** Texts: the phrase test and the messages *)

Lemma append_nil_l s : "" +:+ s = s.
Proof. reflexivity. Qed.

Lemma append_cons a s t : String a s +:+ t = String a (s +:+ t).
Proof. reflexivity. Qed.

Lemma prefix_nil s : String.prefix "" s = true.
Proof. destruct s; reflexivity. Qed.

Lemma prefix_app_l n a b :
  String.prefix n a = true → String.prefix n (a +:+ b) = true.
Proof.
  revert n. induction a as [|x a IH]; intros n Hn.
  - destruct n; [apply prefix_nil|discriminate Hn].
  - destruct n as [|y n]; [apply prefix_nil|].
    rewrite append_cons. simpl in Hn |- *.
    destruct (ascii_dec y x); [apply IH, Hn|discriminate Hn].
Qed.

Lemma prefix_refl n : String.prefix n n = true.
Proof.
  induction n as [|x n IH]; [reflexivity|]. simpl.
  destruct (ascii_dec x x); [exact IH|contradiction].
Qed.

Lemma contains_prefix n s : String.prefix n s = true → contains n s = true.
Proof. destruct s; simpl; intros ->; reflexivity. Qed.

Lemma contains_refl n : contains n n = true.
Proof. apply contains_prefix, prefix_refl. Qed.

Lemma contains_app_r n a b : contains n b = true → contains n (a +:+ b) = true.
Proof.
  intros Hb. induction a as [|x a IH]; [exact Hb|].
  rewrite append_cons.
  change (contains n (String x (a +:+ b)))
    with (String.prefix n (String x (a +:+ b)) || contains n (a +:+ b)).
  rewrite IH. apply orb_true_r.
Qed.

Lemma contains_app_l n a b : contains n a = true → contains n (a +:+ b) = true.
Proof.
  induction a as [|x a IH]; intros Hn; simpl in Hn.
  - rewrite orb_false_r in Hn. destruct n; [|discriminate Hn].
    apply contains_prefix, prefix_nil.
  - apply orb_true_iff in Hn. destruct Hn as [Hp|Hc].
    + apply contains_prefix, prefix_app_l, Hp.
    + rewrite append_cons.
      change (contains n (String x (a +:+ b)))
        with (String.prefix n (String x (a +:+ b)) || contains n (a +:+ b)).
      rewrite (IH Hc). apply orb_true_r.
Qed.

Lemma lower_string_app a b :
  lower_string (a +:+ b) = lower_string a +:+ lower_string b.
Proof.
  induction a as [|x a IH]; [reflexivity|].
  rewrite append_cons. simpl. rewrite IH. reflexivity.
Qed.

Lemma err_not_found_message tries :
  err_message (err_not_found tries)
  = "Could not locate the bindings file. Tried:" +:+ newline
    +:+ join_lines (map (λ file, " - " +:+ file) tries).
Proof. reflexivity. Qed.

Lemma join_lines_contains (g : string → string) f l :
  f ∈ l → contains (g f) (join_lines (map g l)) = true.
Proof.
  induction l as [|x l IH]; intros Hf; [inversion Hf|].
  apply elem_of_cons in Hf.
  destruct l as [|y l].
  - destruct Hf as [->|Hf]; [apply contains_refl|inversion Hf].
  - change (join_lines (map g (x :: y :: l)))
      with (g x +:+ newline +:+ join_lines (map g (y :: l))).
    destruct Hf as [->|Hf].
    + apply contains_app_l, contains_refl.
    + apply contains_app_r, contains_app_r, IH, Hf.
Qed.

(** X10.  An error whose message holds the words [not find], in whatever
    mix of capitals and small letters and wherever in the message, is
    classified as not found, whatever its code is or even without one: the
    load that threw it does not end the search. *)
Theorem X10_phrase_in_any_case e pre s post :
  err_message e = pre +:+ s +:+ post →
  lower_string s = "not find" →
  is_not_found e = true
  ∧ ∀ W file, loader W file = Throw e → reports_not_found W file = true.
Proof.
  intros Hmsg Hs.
  assert (not_find_test (err_message e) = true) as Htest.
  { unfold not_find_test. rewrite Hmsg, !lower_string_app, Hs.
    apply contains_app_r, contains_app_l, contains_refl. }
  assert (is_not_found e = true) as Hnf.
  { unfold is_not_found. rewrite Htest.
    destruct (err_code e); [apply orb_true_r|reflexivity]. }
  split; [exact Hnf|].
  intros W file Hload. unfold reports_not_found. rewrite Hload. exact Hnf.
Qed.

(** X11.  The message of the exhaustion error names every file that was
    tried, each after the mark [ - ]; the same files are its [tries]. *)
Theorem X11_message_names_every_try tries f :
  f ∈ tries →
  contains (" - " +:+ f) (err_message (err_not_found tries)) = true
  ∧ err_tries (err_not_found tries) = Some tries.
Proof.
  intros Hf. split; [|reflexivity].
  rewrite err_not_found_message.
  apply contains_app_r, contains_app_r.
  exact (join_lines_contains (λ file, " - " +:+ file) f tries Hf).
Qed.

(** ** Configuration and keys *)

Section KeyFacts.
Context `{PM : PathModule} (P : Process) (U : UrlModule).

(** X12.  The variable [NODE_BINDINGS_COMPILED_DIR] reaches one candidate
    only, the 14th: the file that every other template of [paths] expands
    to, under options made from [defaults], is the same whatever its
    value.  The 14th template expands to the directory that the variable
    names below the root when it is set to a text that is not empty;
    unset or empty, that directory is [compiled]. *)
Theorem X12_env_override_reaches_one_candidate e root name :
  (∀ i parts, i ≠ 13%nat → paths !! i = Some parts →
     candidate (make_options (with_compiled_env e P) root name) parts
     = candidate (make_options P root name) parts)
  ∧ ∃ parts,
      paths !! 13%nat = Some parts
      ∧ (∀ s, e = Some s → s ≠ "" →
           candidate (make_options (with_compiled_env e P) root name) parts
           = Some (join [root; s; versions_node P; platform P; arch P; name]))
      ∧ (e = None ∨ e = Some "" →
           candidate (make_options (with_compiled_env e P) root name) parts
           = Some (join [root; "compiled"; versions_node P; platform P; arch P;
                         name])).
Proof.
  split.
  - intros i parts Hi Hparts.
    do 18 (destruct i as [|i];
           [try (exfalso; apply Hi; reflexivity);
            injection Hparts as <-; reflexivity|]).
    discriminate Hparts.
  - eexists. split; [reflexivity|]. split.
    + intros s -> Hs. cbn. unfold compiled_dir. cbn.
      destruct (String.eqb_spec s ""); [contradiction|reflexivity].
    + intros [->| ->]; reflexivity.
Qed.

Lemma cache_key_same_name n p1 p2 :
  cache_key n p1 = cache_key n p2 → p1 = p2.
Proof.
  induction n as [|a n IH]; rewrite ?cache_key_nil, ?cache_key_cons.
  - intros [= ->]. reflexivity.
  - intros [= Hkey]. exact (IH Hkey).
Qed.

(** [getRoot] starts with a look at [package.json] in the resolved
    origin. *)
Lemma getRoot_first_probe W path c :
  ∃ r t, getRoot W path c
         = (r, c, EvExists (join [resolve (cwd W) path; "package.json"]) :: t).
Proof.
  unfold getRoot. cbn [getRoot_loop]. unfold bind.
  rewrite (has_marker_events W (resolve (cwd W) path) c).
  destruct (getRoot_loop_uniform W path (depth (resolve (cwd W) path))
              (dirname (resolve (cwd W) path))) as (r & t & _ & Hrec).
  unfold marker_events.
  destruct (marker W (resolve (cwd W) path)); [eexists _, _; reflexivity|].
  destruct (String.eqb _ _); [eexists _, _; reflexivity|].
  rewrite Hrec. eexists _, _. reflexivity.
Qed.

(** X13.  The key holds the origin as a text, not the root found for it:
    after a call has returned a binding for one plain origin, a call with
    the same name and another plain origin, even one that leads to the same
    root, is not answered from the cache.  It looks at the filesystem again
    and does what it would do with an empty cache. *)
Theorem X13_origins_are_cached_apart W W' name p1 p2 v c' t :
  is_file_uri p1 = false →
  is_file_uri p2 = false →
  p1 ≠ p2 →
  loady P U W (VString name) (VString p1) ∅ = (Ok v, c', t) →
  (loady P U W' (VString name) (VString p2) c').1.1
  = (loady P U W' (VString name) (VString p2) ∅).1.1
  ∧ (loady P U W' (VString name) (VString p2) c').2
    = (loady P U W' (VString name) (VString p2) ∅).2
  ∧ (loady P U W' (VString name) (VString p2) c').2 ≠ [].
Proof.
  intros Hp1 Hp2 Hne Hrun.
  assert (ensurePath U p1 = Ok p1) as Hd1
    by (unfold ensurePath; rewrite Hp1; reflexivity).
  assert (ensurePath U p2 = Ok p2) as Hd2
    by (unfold ensurePath; rewrite Hp2; reflexivity).
  assert (c' !! cache_key (normalize_name name) p2 = None) as Hmiss.
  { destruct (loady_cache_step P U W _ _ _ _ _ _ Hrun)
      as [->|(n & p & dir & v0 & [= <-] & [= <-] & Hdir & _ & _ & ->)].
    - apply lookup_empty.
    - rewrite Hd1 in Hdir. injection Hdir as <-.
      rewrite lookup_insert_ne; [apply lookup_empty|].
      intros Hkey. apply Hne. exact (cache_key_same_name _ _ _ Hkey). }
  rewrite !loady_run, Hd2. cbn zeta. rewrite Hmiss, lookup_empty.
  cbn [from_option id truthy].
  destruct (locate_and_load_uniform P W' (cache_key (normalize_name name) p2)
              (normalize_name name) p2) as (r & t0 & Huni).
  rewrite !Huni. cbn [fst snd]. split; [reflexivity|]. split; [reflexivity|].
  specialize (Huni ∅). unfold locate_and_load, bind in Huni.
  destruct (getRoot_first_probe W' p2 ∅) as (r0 & t1 & Hroot).
  rewrite Hroot in Huni.
  destruct r0 as [root| |].
  - destruct (search W' _ _ paths [] ∅) as [[r1 c1] t2].
    injection Huni as _ _ <-. discriminate.
  - injection Huni as _ _ <-. discriminate.
  - injection Huni as _ _ <-. discriminate.
Qed.

(** X14.  The key holds the name after normalization: when a name takes
    the extension and the extended name keeps it, a truthy binding returned
    under either of the two names is answered from the cache under the
    other, with no filesystem or loader call. *)
Theorem X14_names_share_an_entry W W' name path c v c' t :
  extname name ≠ ".node" →
  extname (name +:+ ".node") = ".node" →
  truthy v = true →
  (loady P U W (VString name) path c = (Ok v, c', t) →
   loady P U W' (VString (name +:+ ".node")) path c' = (Ok v, c', []))
  ∧ (loady P U W (VString (name +:+ ".node")) path c = (Ok v, c', t) →
     loady P U W' (VString name) path c' = (Ok v, c', [])).
Proof.
  intros Hext Hext' Hv.
  assert (normalize_name name = normalize_name (name +:+ ".node")) as Hnorm.
  { unfold normalize_name. rewrite Hext'.
    destruct (String.eqb_spec (extname name) ".node"); [contradiction|].
    reflexivity. }
  assert (∀ V, loady P U V (VString (name +:+ ".node")) path
               = loady P U V (VString name) path) as Hsame.
  { intros V. unfold loady. rewrite Hnorm. reflexivity. }
  rewrite !Hsame.
  assert (loady P U W (VString name) path c = (Ok v, c', t) →
          loady P U W' (VString name) path c' = (Ok v, c', [])) as Hhit.
  { intros Hrun.
    destruct path as [| | | |p| | |]; try discriminate Hrun.
    destruct (ensurePath U p) as [dir|e|] eqn:Hdir.
    - exact (cached_after_success P U W W' name p p dir c v c' t
               Hrun Hv Hdir Hdir).
    - rewrite loady_run, Hdir in Hrun. discriminate Hrun.
    - rewrite loady_run, Hdir in Hrun. discriminate Hrun. }
  split; exact Hhit.
Qed.

End KeyFacts.

(** ** What a call looks at *)

Section WorldFacts.
Context `{PM : PathModule} (P : Process) (U : UrlModule).
Context (W W' : World).
Hypothesis same_cwd : cwd W' = cwd W.
Hypothesis same_loader : ∀ file, loader W' file = loader W file.
Hypothesis same_package_json :
  ∀ d, fs_exists W' (join [d; "package.json"]) = fs_exists W (join [d; "package.json"]).
Hypothesis same_node_modules :
  ∀ d, fs_exists W' (join [d; "node_modules"]) = fs_exists W (join [d; "node_modules"]).

Lemma has_marker_ext root c : has_marker W' root c = has_marker W root c.
Proof.
  rewrite !has_marker_events. unfold marker, marker_events.
  rewrite same_package_json, same_node_modules. reflexivity.
Qed.

Lemma getRoot_loop_ext path fuel root c :
  getRoot_loop W' path fuel root c = getRoot_loop W path fuel root c.
Proof.
  revert root. induction fuel as [|fuel IH]; intros root; [reflexivity|].
  cbn [getRoot_loop]. unfold bind. rewrite has_marker_ext, has_marker_events.
  destruct (marker W root); [reflexivity|].
  destruct (String.eqb (dirname root) root); [reflexivity|].
  rewrite IH. reflexivity.
Qed.

Lemma search_ext key options templates tries c :
  search W' key options templates tries c = search W key options templates tries c.
Proof.
  revert tries. induction templates as [|parts rest IH]; intros tries;
    [reflexivity|].
  rewrite !search_cons.
  destruct (candidate options parts) as [f|]; [|reflexivity].
  rewrite same_loader.
  destruct (loader W f) as [v|x|]; try reflexivity.
  destruct (classified x); [|reflexivity].
  rewrite IH. reflexivity.
Qed.

(** X16.  Of the filesystem a call sees only whether [package.json] and
    [node_modules] exist in directories: in two worlds with the same
    working directory and the same loader that agree on those two entries
    in every directory, every call has the same outcome and makes the same
    calls, whatever else differs, such as which candidate files exist. *)
Theorem X16_only_markers_are_looked_at name path c :
  loady P U W' name path c = loady P U W name path c.
Proof.
  destruct name as [| | | |n| | |]; try reflexivity.
  destruct path as [| | | |p| | |]; try reflexivity.
  rewrite !loady_run.
  destruct (ensurePath U p) as [dir|e|]; try reflexivity.
  cbn zeta. destruct (truthy _); [reflexivity|].
  unfold locate_and_load, bind, getRoot.
  rewrite same_cwd, getRoot_loop_ext.
  destruct (getRoot_loop W dir _ _ c) as [[[root| |] c1] t1]; try reflexivity.
  rewrite search_ext. reflexivity.
Qed.

End WorldFacts.

(** ** The POSIX paths of the markers *)

Module PosixMarkers.
Import Posix.

Lemma chars_app a b :
  list_ascii_of_string (a +:+ b)
  = list_ascii_of_string a ++ list_ascii_of_string b.
Proof.
  induction a as [|x a IH]; [reflexivity|].
  rewrite append_cons. simpl. rewrite IH. reflexivity.
Qed.

Lemma append_assoc a b c : a +:+ b +:+ c = (a +:+ b) +:+ c.
Proof.
  induction a as [|x a IH]; [reflexivity|].
  rewrite !append_cons, IH. reflexivity.
Qed.

Lemma chars_nonempty m : m ≠ "" → list_ascii_of_string m ≠ [].
Proof. destruct m; [contradiction|discriminate]. Qed.

Lemma split_on_tail l cur w :
  ∃ pre, split_on (l ++ "/"%char :: w) cur = pre ++ split_on w [].
Proof.
  revert cur. induction l as [|c l IH]; intros cur.
  - exists [rev cur]. reflexivity.
  - cbn [app split_on]. destruct (is_slash c).
    + destruct (IH []) as (pre & ->). exists (rev cur :: pre). reflexivity.
    + apply IH.
Qed.

Lemma split_on_plain w cur :
  forallb not_slash w = true → split_on w cur = [rev cur ++ w].
Proof.
  revert cur. induction w as [|c w IH]; intros cur Hw.
  - cbn. rewrite app_nil_r. reflexivity.
  - cbn in Hw. apply andb_true_iff in Hw. destruct Hw as [Hc Hw].
    cbn [split_on]. unfold not_slash in Hc.
    destruct (is_slash c); [discriminate Hc|].
    rewrite (IH _ Hw). cbn [rev]. rewrite <- app_assoc. reflexivity.
Qed.

Lemma segments_plain m : plain_name m → segments m = [m].
Proof.
  intros (Hm & _). unfold segments. rewrite (split_on_plain _ [] Hm).
  cbn. rewrite string_of_list_ascii_of_string. reflexivity.
Qed.

Lemma segments_tail d m :
  plain_name m → ∃ pre, segments (d +:+ "/" +:+ m) = pre ++ [m].
Proof.
  intros (Hm & _). unfold segments. rewrite chars_app.
  change (list_ascii_of_string ("/" +:+ m))
    with ("/"%char :: list_ascii_of_string m).
  destruct (split_on_tail (list_ascii_of_string d) [] (list_ascii_of_string m))
    as (pre & ->).
  rewrite (split_on_plain _ [] Hm), map_app. cbn.
  rewrite string_of_list_ascii_of_string. eauto.
Qed.

Lemma push_plain allow stack m :
  plain_name m → push_segment allow stack m = m :: stack.
Proof.
  intros (_ & H0 & H1 & H2). unfold push_segment.
  destruct (String.eqb_spec m ""); [contradiction|].
  destruct (String.eqb_spec m "."); [contradiction|].
  destruct (String.eqb_spec m ".."); [contradiction|].
  reflexivity.
Qed.

Lemma join_with_slash_snoc l x :
  ∃ q, list_ascii_of_string (join_with_slash (l ++ [x]))
       = q ++ list_ascii_of_string x.
Proof.
  induction l as [|y l IH]; [exists []; reflexivity|].
  destruct IH as (q & Hq).
  cbn [app]. destruct (l ++ [x]) as [|z k] eqn:Hk; [destruct l; discriminate Hk|].
  change (join_with_slash (y :: z :: k))
    with (y +:+ "/" +:+ join_with_slash (z :: k)).
  rewrite !chars_app, Hq.
  exists (list_ascii_of_string y ++ list_ascii_of_string "/" ++ q).
  rewrite <- !app_assoc. reflexivity.
Qed.

Lemma normalizeString_tail s allow pre m :
  segments s = pre ++ [m] → plain_name m →
  ∃ q, list_ascii_of_string (normalizeString s allow)
       = q ++ list_ascii_of_string m.
Proof.
  intros Hs Hm. unfold normalizeString. rewrite Hs, fold_left_app. cbn [fold_left].
  rewrite (push_plain _ _ _ Hm). cbn [rev]. apply join_with_slash_snoc.
Qed.

Lemma ends_with_slash_tail a m :
  plain_name m → ends_with_slash (a +:+ m) = false.
Proof.
  intros (Hm & Hne & _). unfold ends_with_slash.
  rewrite chars_app, rev_app_distr.
  destruct (rev (list_ascii_of_string m)) as [|c r] eqn:Hrev.
  - apply (f_equal (@rev ascii)) in Hrev. rewrite rev_involutive in Hrev.
    destruct (chars_nonempty m Hne Hrev).
  - cbn [app]. rewrite forallb_forall in Hm.
    assert (In c (list_ascii_of_string m)) as Hc.
    { apply in_rev. rewrite Hrev. left. reflexivity. }
    specialize (Hm c Hc). unfold not_slash in Hm.
    destruct (is_slash c); [discriminate Hm|reflexivity].
Qed.

Lemma normalize_tail s pre m :
  segments s = pre ++ [m] → plain_name m → ends_with_slash s = false →
  ∃ q, list_ascii_of_string (normalize s) = q ++ list_ascii_of_string m.
Proof.
  intros Hs Hm Hend. unfold normalize. rewrite Hend.
  destruct (normalizeString_tail s (negb (isAbsolute s)) pre m Hs Hm) as (q & Hq).
  destruct (String.eqb_spec s "") as [->|_].
  { destruct Hm as (_ & Hne & _). cbn in Hs.
    destruct pre as [|x [|y pre]]; try discriminate Hs.
    injection Hs as <-. contradiction. }
  destruct (String.eqb_spec (normalizeString s (negb (isAbsolute s))) "") as [He|_].
  - rewrite He in Hq. destruct Hm as (_ & Hne & _).
    destruct q; [|discriminate Hq].
    destruct (chars_nonempty m Hne). symmetry. exact Hq.
  - destruct (isAbsolute s); [|eauto].
    rewrite chars_app, Hq. exists (list_ascii_of_string "/" ++ q).
    rewrite <- app_assoc. reflexivity.
Qed.

(** A marker joined to a directory is a path that ends with the marker. *)
Lemma join_marker_tail d m :
  plain_name m →
  ∃ q, list_ascii_of_string (join [d; m]) = q ++ list_ascii_of_string m.
Proof.
  intros Hm. pose proof Hm as (_ & Hne & _). unfold join.
  rewrite !filter_cons, filter_nil.
  destruct (decide (negb (String.eqb m ""))) as [_|Hm0].
  2:{ destruct m; [contradiction|]. contradiction Hm0. exact I. }
  destruct (decide (negb (String.eqb d ""))) as [_|_].
  - change (join_with_slash [d; m]) with (d +:+ "/" +:+ m).
    destruct (segments_tail d m Hm) as (pre & Hpre).
    apply (normalize_tail _ pre m Hpre Hm).
    rewrite append_assoc. exact (ends_with_slash_tail (d +:+ "/") m Hm).
  - apply (normalize_tail m [] m (segments_plain m Hm) Hm).
    exact (ends_with_slash_tail "" m Hm).
Qed.

Lemma package_json_plain : plain_name "package.json".
Proof. repeat split; discriminate. Qed.

Lemma node_modules_plain : plain_name "node_modules".
Proof. repeat split; discriminate. Qed.

(** No path that [getRoot] looks at is a [.node] file. *)
Lemma marker_is_no_binding d m file :
  plain_name m →
  last (list_ascii_of_string file) ≠ last (list_ascii_of_string m) →
  String.eqb (join [d; m]) file = false.
Proof.
  intros Hm Hlast. apply String.eqb_neq. intros Heq. apply Hlast.
  destruct (join_marker_tail d m Hm) as (q & Hq).
  rewrite <- Heq, Hq, last_app.
  destruct Hm as (_ & Hne & _).
  destruct (last (list_ascii_of_string m)) eqn:Hl; [reflexivity|].
  apply last_None in Hl. destruct (chars_nonempty m Hne Hl).
Qed.

End PosixMarkers.

(** * Scenarios of the further properties *)

Lemma X1_witness :
  ∃ e : error,
       run world_built (VNumber 1) VUndefined other_cache
       = (Throw e, other_cache, [])
       ∧ err_class e = ClsTypeError
       ∧ ((∀ s, VNumber 1 ≠ VString s) → e = err_name)
       ∧ (∀ n, VNumber 1 = VString n → e = err_path_arg).
Proof.
  apply (X1_invalid_arguments (PM := posix_path) Host.process Host.url
           world_built (VNumber 1) VUndefined other_cache).
  left. intros s. discriminate.
Defined.

Lemma X2_witness :
  @loady posix_path Host.process Host.old_url world_built (VString "foo")
    (VString "file:///proj/index.js") {[ foo_key := VObject 1 ]}
  = (Throw (err_file_uri "file:///proj/index.js"), {[ foo_key := VObject 1 ]}, [])
  ∧ err_code (err_file_uri "file:///proj/index.js") = Some "ERR_BINDINGS_FILE_URI"
  ∧ err_url (err_file_uri "file:///proj/index.js") = Some "file:///proj/index.js".
Proof.
  apply (X2_file_uri_unsupported (PM := posix_path) Host.process Host.old_url
           world_built "foo" "file:///proj/index.js" {[ foo_key := VObject 1 ]});
    reflexivity.
Defined.

Lemma X3_witness :
  run world_built (VString "foo") (VString "file://example.com/proj/index.js") ∅
  = (Throw Host.err_invalid_file_url_host, ∅, []).
Proof.
  apply (X3_conversion_error_propagates (PM := posix_path) Host.process Host.url
           world_built "foo" "file://example.com/proj/index.js" ∅
           Host.fileURLToPath);
    reflexivity.
Defined.

Lemma X4_witness :
  ensurePath Host.url "/proj" = Ok "/proj"
  ∧ run world_built (VString "foo") (VString "/proj")
    = @loady posix_path Host.process Host.old_url world_built
        (VString "foo") (VString "/proj").
Proof.
  apply (X4_plain_origin_ignores_url (PM := posix_path) Host.process Host.url
           Host.old_url world_built (VString "foo") "/proj").
  reflexivity.
Defined.

Lemma X5_witness :
  run world_release_built (VString "foo") (VString "/proj") other_cache
  = (Ok (VObject 2), <[foo_key := VObject 2]> other_cache,
     [EvExists "/proj/package.json"]
     ++ map EvLoad (take 3 (template_order Host.process "/proj" "foo.node"))).
Proof.
  apply (X5_first_loadable_candidate_wins (PM := posix_path) Host.process
           Host.url world_release_built "foo" "/proj" other_cache "/proj" "/proj"
           [EvExists "/proj/package.json"] 2 "/proj/build/Release/foo.node").
  - reflexivity.
  - vm_compute. reflexivity.
  - vm_compute. reflexivity.
  - vm_compute. reflexivity.
  - vm_compute. reflexivity.
  - intros [|[|j]] f Hj Hf; [| |lia];
      vm_compute in Hf; injection Hf as <-; vm_compute; reflexivity.
Defined.

Lemma X6_witness :
  (∀ k v, other_cache !! k = Some v → truthy v = true →
     (<[foo_key := VObject 1]> other_cache) !! k = Some v)
  ∧ dom other_cache ⊆ dom (<[foo_key := VObject 1]> other_cache)
  ∧ (<[foo_key := VObject 1]> other_cache = other_cache
     ∨ ∃ k v, Ok (VObject 1) = Ok v
              ∧ <[foo_key := VObject 1]> other_cache = <[k := v]> other_cache).
Proof.
  eapply (X6_cache_entries_survive (PM := posix_path) Host.process Host.url
            world_built (VString "foo") (VString "/proj") other_cache).
  vm_compute. reflexivity.
Defined.

Lemma X7_witness :
  (∃ m t, getRoot world_chain "/a/b/c" ∅
          = (Ok (ancestor m (resolve (cwd world_chain) "/a/b/c")), ∅, t)
          ∧ marker world_chain (ancestor m (resolve (cwd world_chain) "/a/b/c"))
            = true)
  ∨ (∃ t, getRoot world_chain "/a/b/c" ∅ = (Throw (err_no_root "/a/b/c"), ∅, t)
          ∧ ∀ k, marker world_chain (ancestor k (resolve (cwd world_chain) "/a/b/c"))
                 = false).
Proof.
  exact (X7_getRoot_returns_or_throws (PM := posix_path) world_chain "/a/b/c" ∅).
Defined.

Lemma X8_witness :
  ∃ m,
    (getRoot world_chain "/a/b/c" ∅).2
    = climb_events world_chain (S m) (resolve (cwd world_chain) "/a/b/c")
    ∧ (∀ j, (j < m)%nat →
         marker world_chain (ancestor j (resolve (cwd world_chain) "/a/b/c")) = false
         ∧ dirname (ancestor j (resolve (cwd world_chain) "/a/b/c"))
           ≠ ancestor j (resolve (cwd world_chain) "/a/b/c"))
    ∧ (marker world_chain (ancestor m (resolve (cwd world_chain) "/a/b/c")) = true
       ∨ dirname (ancestor m (resolve (cwd world_chain) "/a/b/c"))
         = ancestor m (resolve (cwd world_chain) "/a/b/c"))
    ∧ (length (getRoot world_chain "/a/b/c" ∅).2 <= 2 * S m)%nat.
Proof.
  exact (X8_getRoot_probes (PM := posix_path) world_chain "/a/b/c" ∅).
Defined.

(** The walk of X8 on the chain [/a/b/c], [/a/b], [/a]: five calls. *)
Example probes_of_chain :
  probes (getRoot world_chain "/a/b/c" ∅).2
  = ["/a/b/c/package.json"; "/a/b/c/node_modules"; "/a/b/package.json";
     "/a/b/node_modules"; "/a/package.json"].
Proof. vm_compute. reflexivity. Qed.

Lemma X10_witness :
  is_not_found err_shouting = true
  ∧ ∀ W file, loader W file = Throw err_shouting → reports_not_found W file = true.
Proof.
  apply (X10_phrase_in_any_case err_shouting
           "COULD " "NOT FIND" " THE FILE"); reflexivity.
Defined.

Lemma X11_witness :
  contains (" - " +:+ "/proj/foo.node")
    (err_message (err_not_found (template_order Host.process "/proj" "foo.node")))
  = true
  ∧ err_tries (err_not_found (template_order Host.process "/proj" "foo.node"))
    = Some (template_order Host.process "/proj" "foo.node").
Proof.
  apply (X11_message_names_every_try
           (template_order Host.process "/proj" "foo.node") "/proj/foo.node").
  apply list_elem_of_In. vm_compute. tauto.
Defined.

Lemma X13_witness :
  (run world_built (VString "foo") (VString "/proj/") {[ foo_key := VObject 1 ]}).1.1
  = (run world_built (VString "foo") (VString "/proj/") ∅).1.1
  ∧ (run world_built (VString "foo") (VString "/proj/") {[ foo_key := VObject 1 ]}).2
    = (run world_built (VString "foo") (VString "/proj/") ∅).2
  ∧ (run world_built (VString "foo") (VString "/proj/") {[ foo_key := VObject 1 ]}).2
    ≠ [].
Proof.
  eapply (X13_origins_are_cached_apart (PM := posix_path) Host.process Host.url
            world_built world_built "foo" "/proj" "/proj/" (VObject 1)).
  - reflexivity.
  - reflexivity.
  - discriminate.
  - vm_compute. reflexivity.
Defined.

(** The two origins of the scenario of X13 lead to the same root. *)
Example same_root_other_origin :
  (getRoot world_built "/proj" ∅).1.1 = Ok "/proj"
  ∧ (getRoot world_built "/proj/" ∅).1.1 = Ok "/proj".
Proof. vm_compute. split; reflexivity. Qed.

Lemma X14_witness :
  run world_bare (VString "foo.node") (VString "/proj") {[ foo_key := VObject 1 ]}
  = (Ok (VObject 1), {[ foo_key := VObject 1 ]}, []).
Proof.
  eapply (X14_names_share_an_entry (PM := posix_path) Host.process Host.url
            world_built world_bare "foo" (VString "/proj") ∅ (VObject 1)).
  - vm_compute. discriminate.
  - vm_compute. reflexivity.
  - reflexivity.
  - vm_compute. reflexivity.
Defined.


Lemma X16_witness :
  run world_with_binary (VString "foo") (VString "/proj") ∅
  = run world_built (VString "foo") (VString "/proj") ∅.
Proof.
  apply (X16_only_markers_are_looked_at (PM := posix_path) Host.process Host.url
           world_built world_with_binary).
  - reflexivity.
  - intros file. reflexivity.
  - intros d. cbn [fs_exists world_with_binary world_built Host.world].
    unfold Host.member, proj_files. cbn [existsb].
    change (@join posix_path) with Posix.join.
    rewrite (PosixMarkers.marker_is_no_binding d "package.json"
               "/proj/build/foo.node" PosixMarkers.package_json_plain);
      [reflexivity|vm_compute; discriminate].
  - intros d. cbn [fs_exists world_with_binary world_built Host.world].
    unfold Host.member, proj_files. cbn [existsb].
    change (@join posix_path) with Posix.join.
    rewrite (PosixMarkers.marker_is_no_binding d "node_modules"
               "/proj/build/foo.node" PosixMarkers.node_modules_plain);
      [reflexivity|vm_compute; discriminate].
Defined.

